(** * financejs: the root finders behind [IRR] and [XIRR]

    A shallow embedding of [seekZero], [IRR], [durYear], [sumEq] and [XIRR]
    of the [Finance] class (finance.ts), and the properties of the
    specification that concern them; then [PP], [AM], [DF], [CI] and [PMT].

    JavaScript numbers are kept abstract in the algorithms: every function
    is written once over a [Number] structure that supplies the arithmetic
    the source uses ([+], [-], [*], [/], unary minus, [<], [>], [Math.pow],
    [Math.round], [Math.abs], [toFixed(5)]).  What is proved over an
    arbitrary [Number] holds whatever the arithmetic does, IEEE rounding,
    infinities and NaN included.  Two instances follow: binary64 floats
    (the kernel's primitive floats, bit for bit the arithmetic of a JS
    engine for the four operations and the comparisons), for concrete runs
    and for what the IEEE operations themselves guarantee, and exact
    rationals, the arithmetic without rounding, in which a few facts are
    stated a second time.  [Math.pow] is a parameter of both. *)

From Stdlib Require Import String Ascii DecimalString.
From Stdlib Require Import ZArith QArith Qround Qabs Bool Lia Floats Uint63 List.
Import ListNotations.

Set Implicit Arguments.

(** ** JavaScript numbers *)

Class Number (num : Type) : Type := {
  of_Z : Z -> num;             (* integer literals, array indices, time values *)
  cent : num;                  (* the literal [0.01] *)
  nan : num;                   (* what an absent array element is in arithmetic *)
  add : num -> num -> num;
  sub : num -> num -> num;
  mul : num -> num -> num;
  div : num -> num -> num;
  neg : num -> num;            (* unary minus *)
  abs : num -> num;            (* [Math.abs] *)
  pow : num -> num -> num;     (* [Math.pow] *)
  lt : num -> num -> bool;     (* [a < b] *)
  round : num -> num;          (* [Math.round] *)
  toFixed5 : num -> string     (* [x.toFixed(5)] *)
}.

(** [a > b] is [b < a], also on NaN. *)
Definition gt {num : Type} {N : Number num} (a b : num) : bool := lt b a.

Declare Scope js_scope.
Delimit Scope js_scope with js.
Notation "x + y" := (add x y) : js_scope.
Notation "x - y" := (sub x y) : js_scope.
Notation "x * y" := (mul x y) : js_scope.
Notation "x / y" := (div x y) : js_scope.
Notation "- x" := (neg x) : js_scope.
Notation "x <? y" := (lt x y) : js_scope.
Notation "x >? y" := (gt x y) : js_scope.

(** ** Exceptions, and computations that may throw or run on *)

Inductive error : Type :=
| InvalidCashFlowSigns   (* "... requires at least one positive value and one negative value" *)
| LengthMismatch         (* "Number of cash flows and dates should match" *)
| SearchExhausted        (* "IRR can't find a result" *)
| DidNotConverge.        (* "XIRR did not converge" *)

(** The last constructor is the model's, not the program's: a [while] loop
    is unfolded [fuel] times, and [OutOfFuel] says it wanted more. *)
Inductive outcome (A : Type) : Type :=
| Returned (a : A)
| Threw (e : error)
| OutOfFuel.

Arguments Threw {A} e.
Arguments OutOfFuel {A}.

(** A computation over a mutable store of type [St] (the variables a
    closure captures). *)
Definition M (St A : Type) : Type := St -> outcome A * St.

Definition ret {St A} (a : A) : M St A := fun s => (Returned a, s).

Definition bind {St A B} (m : M St A) (k : A -> M St B) : M St B :=
  fun s =>
    match m s with
    | (Returned a, s') => k a s'
    | (Threw e, s') => (Threw e, s')
    | (OutOfFuel, s') => (OutOfFuel, s')
    end.

Notation "x <- m ;; k" := (bind m (fun x => k))
  (at level 61, m at next level, right associativity).

Definition outcome_map {A B} (f : A -> B) (o : outcome A) : outcome B :=
  match o with
  | Returned a => Returned (f a)
  | Threw e => Threw e
  | OutOfFuel => OutOfFuel
  end.

(** ** seekZero *)

Section SeekZero.
Context {num : Type} {N : Number num} {St : Type}.
Variable fn : num -> M St num.
Local Open Scope js_scope.

(** [while (fn(x) > 0) { x += 1; }] *)
Fixpoint scan_up (fuel : nat) (x : num) : M St num :=
  match fuel with
  | O => fun s => (OutOfFuel, s)
  | S fuel' =>
      y <- fn x ;;
      if y >? of_Z 0 then scan_up fuel' (x + of_Z 1) else ret x
  end.

(** [while (fn(x) < 0) { x -= 0.01 }] *)
Fixpoint scan_down (fuel : nat) (x : num) : M St num :=
  match fuel with
  | O => fun s => (OutOfFuel, s)
  | S fuel' =>
      y <- fn x ;;
      if y <? of_Z 0 then scan_down fuel' (x - cent) else ret x
  end.

Definition seekZero (fuel : nat) : M St num :=
  x <- scan_up fuel (of_Z 1) ;;
  x <- scan_down fuel x ;;
  ret (x + cent).

End SeekZero.

(** The scan points: [x] after [n] steps of [+1], and after [m] steps of
    [-0.01]; the upward scan starts from [1]. *)
Fixpoint up_from {num : Type} {N : Number num} (x : num) (n : nat) : num :=
  match n with
  | O => x
  | S n' => add (up_from x n') (of_Z 1)
  end.

Definition up {num : Type} {N : Number num} (n : nat) : num := up_from (of_Z 1) n.

Fixpoint down {num : Type} {N : Number num} (x : num) (m : nat) : num :=
  match m with
  | O => x
  | S m' => sub (down x m') cent
  end.

(** An objective without effects, as a computation. *)
Definition pure_fn {num St : Type} (f : num -> num) : num -> M St num :=
  fun x => ret (f x).

(** ** IRR *)

(** [depth] is an integer (the interface says so); a depth from [2^53] on
    is any number the counter cannot pass, [Infinity] among them. *)
Record CashFlow (num : Type) : Type := {
  depth : Z;
  cashFlow : list num
}.

(** [numberOfTries++] on the counter, a binary64 number that starts at
    [1]: up to [2^53] the sum with [1] is exact; [2^53 + 1] is half-way
    between two doubles and is rounded to the even one, [2^53] again.  So
    the counter runs through [1, 2, ..., 2^53] and stays there. *)
Definition next_try (numberOfTries : Z) : Z :=
  if (numberOfTries <? 2 ^ 53)%Z then (numberOfTries + 1)%Z else numberOfTries.

Section IRR.
Context {num : Type} {N : Number num}.
Local Open Scope js_scope.

(** The two flags after the loop over the series:
    [if (value > 0) positive = true; if (value < 0) negative = true;] *)
Definition sign_flags (cfs : list num) : bool * bool :=
  fold_left
    (fun (flags : bool * bool) (value : num) =>
       let (positive, negative) := flags in
       (if value >? of_Z 0 then true else positive,
        if value <? of_Z 0 then true else negative))
    cfs (false, false).

(** The body of the inner [npv] after the counter: the discounted sum. *)
Definition npv_value (cashFlow : list num) (rate : num) : num :=
  let rrate := of_Z 1 + rate / of_Z 100 in
  fold_left
    (fun (npv : num) (i : nat) =>
       npv + nth i cashFlow nan / pow rrate (of_Z (Z.of_nat i)))
    (seq 1 (length cashFlow - 1))
    (nth 0 cashFlow nan).

(** The inner [npv]: the store is the captured [numberOfTries]. *)
Definition npv (depth : Z) (cashFlow : list num) (rate : num) : M Z num :=
  fun numberOfTries =>
    let numberOfTries := next_try numberOfTries in
    if (numberOfTries >? depth)%Z then (Threw SearchExhausted, numberOfTries)
    else (Returned (npv_value cashFlow rate), numberOfTries).

(** [IRR], with the final value of [numberOfTries] beside the outcome. *)
Definition IRR_fuel (fuel : nat) (cfs : CashFlow num) : outcome num * Z :=
  let depth := depth cfs in
  let cashFlow := cashFlow cfs in
  let numberOfTries := 1%Z in
  let (positive, negative) := sign_flags cashFlow in
  if negb positive || negb negative then (Threw InvalidCashFlowSigns, numberOfTries)
  else
    let (r, numberOfTries) := seekZero (npv depth cashFlow) fuel numberOfTries in
    (outcome_map (fun z => round (z * of_Z 100) / of_Z 100) r, numberOfTries).

(** The loops of [seekZero] need not end, so the run of [IRR] is given by
    rounds; the call ends with [result], an outcome and the last value of
    [numberOfTries], when some number of rounds is enough for it.  With a
    [depth] below [2^53], [depth + 1] rounds always are (see
    [IRR_fuel_enough]). *)
Definition IRR (cfs : CashFlow num) (result : outcome num * Z) : Prop :=
  fst result <> OutOfFuel /\ exists fuel, IRR_fuel fuel cfs = result.

End IRR.

(** ** XIRR and its helpers *)

(** A [Date] is its time value, [getTime()]: milliseconds since the epoch. *)
Definition Date : Type := Z.

(** What [XIRR] has done besides computing: how often it called [durYear]
    and [sumEq] (one call of [sumEq] per iteration of the [do] loop). *)
Record calls : Type := {
  durYear_calls : nat;
  sumEq_calls : nat
}.

Definition no_calls : calls := {| durYear_calls := 0; sumEq_calls := 0 |}.

Section XIRR.
Context {num : Type} {N : Number num}.
Local Open Scope js_scope.

Definition durYear (date1 date2 : Date) : num :=
  let day := of_Z (24 * 60 * 60 * 1000) in
  let diffDays := round (abs ((of_Z date2 - of_Z date1) / day)) in
  diffDays / of_Z 365.

(** [const durs = [0]; for (let i = 1; i < dts.length; i++)
    durs.push(this.durYear(dts[0], dts[i]));] *)
Definition durations (dts : list Date) : list num :=
  fold_left
    (fun (durs : list num) (i : nat) =>
       durs ++ [durYear (nth 0 dts 0%Z) (nth i dts 0%Z)])
    (seq 1 (length dts - 1))
    [of_Z 0].

(** The first loop of [sumEq]. *)
Definition sum_fx (cfs durs : list num) (guess : num) : num :=
  fold_left
    (fun (sum_fx : num) (i : nat) =>
       sum_fx + nth i cfs nan / pow (of_Z 1 + guess) (nth i durs nan))
    (seq 0 (length cfs))
    (of_Z 0).

(** The second loop of [sumEq]. *)
Definition sum_fdx (cfs durs : list num) (guess : num) : num :=
  fold_left
    (fun (sum_fdx : num) (i : nat) =>
       sum_fdx + - nth i cfs nan * nth i durs nan
                 * pow (of_Z 1 + guess) (of_Z (-1) - nth i durs nan))
    (seq 0 (length cfs))
    (of_Z 0).

Definition sumEq (cfs durs : list num) (guess : num) : num :=
  sum_fx cfs durs guess / sum_fdx cfs durs guess.

(** [do { guessLast = guess; guess = guessLast - sumEq(...); limit--; }
    while (guessLast.toFixed(5) !== guess.toFixed(5) && limit > 0);]
    [limit] is the counter before the body; the result is [guessLast],
    [guess] and the number of times the body ran.  (From [limit = 0], which
    the caller never passes, the body runs once, as in the source.) *)
Fixpoint newton (cfs durs : list num) (limit : nat) (guess : num) : num * num * nat :=
  let guessLast := guess in
  let guess := guessLast - sumEq cfs durs guessLast in
  match limit with
  | O => (guessLast, guess, 1%nat)
  | S limit =>
      if negb (String.eqb (toFixed5 guessLast) (toFixed5 guess)) && (0 <? limit)%nat
      then let '(guessLast', guess', n) := newton cfs durs limit guess in
           (guessLast', guess', S n)
      else (guessLast, guess, 1%nat)
  end.

(** [XIRR]; [guess = None] is a call without the third argument. *)
Definition XIRR (cfs : list num) (dts : list Date) (guess : option num)
  : outcome num * calls :=
  let guess := match guess with Some g => g | None => of_Z 0 end in
  if negb (length cfs =? length dts)%nat
  then (Threw LengthMismatch, no_calls)
  else
    let (positive, negative) := sign_flags cfs in
    if negb positive || negb negative
    then (Threw InvalidCashFlowSigns, no_calls)
    else
      let limit := 100%nat in
      let durs := durations dts in
      let '(guessLast, guess, n) := newton cfs durs limit guess in
      let done := {| durYear_calls := length durs - 1; sumEq_calls := n |} in
      let xirr :=
        if negb (String.eqb (toFixed5 guessLast) (toFixed5 guess))
        then None else Some (guess * of_Z 100) in
      match xirr with
      | None => (Threw DidNotConverge, done)
      | Some xirr => (Returned (round (xirr * of_Z 100) / of_Z 100), done)
      end.

End XIRR.

(** ** Fixed-point text *)

(** [k] zeros in front of [s] until it has [k] characters. *)
Definition pad_zeros (k : nat) (s : string) : string :=
  String.concat "" (repeat "0"%string (k - String.length s)) ++ s.

Definition string_of_N (n : N) : string := NilEmpty.string_of_uint (N.to_uint n).

(** [toFixed(digits)] of an exact value: the integer [n] nearest to
    [|q| * 10^digits] (the larger one on a tie), in decimal with a point
    before its last [digits] digits, and a minus sign when [q < 0]. *)
Definition toFixed_Q (digits : nat) (q : Q) : string :=
  let scale := (10 ^ Z.of_nat digits)%Z in
  let n := Qfloor (Qabs q * inject_Z scale + (1 # 2)) in
  let sign := match q ?= 0 with Lt => "-"%string | _ => ""%string end in
  (sign ++ string_of_N (Z.to_N (n / scale)) ++ "."
        ++ pad_zeros digits (string_of_N (Z.to_N (n mod scale))))%string.

(** ** Exact rational numbers

    The arithmetic of the reals on the rationals, every result in lowest
    terms so that equal numbers are equal terms.  It is the arithmetic of
    the source wherever no operation rounds, overflows or divides by zero.
    [Math.pow] is not rational in general and stays a parameter. *)

Section ExactNumbers.
Variable Math_pow : Q -> Q -> Q.

Definition Q_lt (a b : Q) : bool :=
  match a ?= b with Lt => true | _ => false end.

(** [Math.round]: the nearest integer, the upper one on a tie. *)
Definition Q_round (q : Q) : Q := inject_Z (Qfloor (q + (1 # 2))).

#[export] Instance Q_Number : Number Q := {
  of_Z := inject_Z;
  cent := 1 # 100;
  nan := 0;       (* no NaN here; the loops read inside the arrays only *)
  add a b := Qred (a + b);
  sub a b := Qred (a - b);
  mul a b := Qred (a * b);
  div a b := Qred (a / b);
  neg a := Qred (- a);
  abs a := Qred (Qabs a);
  pow := Math_pow;
  lt := Q_lt;
  round := Q_round;
  toFixed5 := toFixed_Q 5
}.

End ExactNumbers.

(** [Math.pow] at an integer exponent, of a rational. *)
Definition Q_pow_int (b e : Q) : Q := Qred (Qpower b (Qfloor e)).

(** ** Binary64 numbers *)

(** The float nearest to an integer below [2^63] in absolute value (time
    values stay below [8.64 * 10^15]). *)
Definition float_of_Z (z : Z) : float :=
  if (z <? 0)%Z then PrimFloat.opp (PrimFloat.of_uint63 (Uint63.of_Z (- z)))
  else PrimFloat.of_uint63 (Uint63.of_Z z).

(** The exact value of a finite float. *)
Definition Q_of_float (x : float) : option Q :=
  match Prim2SF x with
  | S754_zero _ => Some 0
  | S754_finite s m e =>
      let v := (inject_Z (Zpos m) * Qpower 2 e)%Q in
      Some (Qred (if s then - v else v))
  | _ => None
  end.

(** The integer a float is, if it is one. *)
Definition Z_of_float (x : float) : option Z :=
  match Q_of_float x with
  | Some q => if (Zpos (Qden q) =? 1)%Z then Some (Qnum q) else None
  | None => None
  end.

(** [Math.round]: infinities, NaN, zeros and integers are returned as they
    are; a result of zero keeps the sign of the argument. *)
Definition float_round (x : float) : float :=
  match Z_of_float x, Q_of_float x with
  | None, Some q =>
      let z := Qfloor (q + (1 # 2)) in
      if (z =? 0)%Z then (if PrimFloat.ltb x PrimFloat.zero then PrimFloat.neg_zero else PrimFloat.zero)
      else float_of_Z z
  | _, _ => x
  end.

(** [Math.pow] at an integer exponent, by repeated multiplication: [1] at
    exponent [0], the base at [1], its inverse at [-1], as every engine
    returns them; other integers up to the rounding of the products.  At
    an exponent that is not an integer this instance has no value to give
    and answers NaN; no run below reaches that case. *)
Definition float_pow (b e : float) : float :=
  match Z_of_float e with
  | Some Z0 => PrimFloat.one
  | Some (Zpos p) => Pos.iter (fun acc => PrimFloat.mul acc b) PrimFloat.one p
  | Some (Zneg p) =>
      PrimFloat.div PrimFloat.one (Pos.iter (fun acc => PrimFloat.mul acc b) PrimFloat.one p)
  | None => PrimFloat.nan
  end.

(** [x.toFixed(5)].  From [10^21] on the source prints the shortest
    digits that identify the float rather than all of them; two texts are
    equal there exactly when they are equal here. *)
Definition float_toFixed5 (x : float) : string :=
  match Q_of_float x with
  | Some q => toFixed_Q 5 q
  | None =>
      if PrimFloat.is_nan x then "NaN"%string
      else if PrimFloat.ltb x PrimFloat.zero then "-Infinity"%string
      else "Infinity"%string
  end.

(** Binary64 with a given [Math.pow]. *)
Definition binary64 (Math_pow : float -> float -> float) : Number float := {|
  of_Z := float_of_Z;
  cent := PrimFloat.div (float_of_Z 1) (float_of_Z 100);
  nan := PrimFloat.nan;
  add := PrimFloat.add;
  sub := PrimFloat.sub;
  mul := PrimFloat.mul;
  div := PrimFloat.div;
  neg := PrimFloat.opp;
  abs := PrimFloat.abs;
  pow := Math_pow;
  lt := PrimFloat.ltb;
  round := float_round;
  toFixed5 := float_toFixed5
|}.

#[export] Instance float_Number : Number float := binary64 float_pow.

(** A float that is a zero of either sign, or NaN: as a divisor, never a
    number other than zero. *)
Definition zero_or_nan (x : float) : Prop :=
  match Prim2SF x with
  | S754_zero _ | S754_nan => True
  | _ => False
  end.

(** The shapes of binary64 number that a runaway search goes through.  A
    number that is not negative: [+0], a positive number or [Infinity]. *)
Definition SF_nonneg (x : spec_float) : Prop :=
  match x with
  | S754_zero false | S754_infinity false | S754_finite false _ _ => True
  | _ => False
  end.

(** A number that is [1] at least: [Infinity], or a positive number whose
    exponent is not below that of [1], which is [2^52 * 2^-52]. *)
Definition SF_ge1 (x : spec_float) : Prop :=
  match x with
  | S754_infinity false => True
  | S754_finite false _ e => (-52 <= e)%Z
  | _ => False
  end.

(** [-0], or a negative number above [-4]: its exponent is [-51] at most. *)
Definition SF_small_negative (x : spec_float) : Prop :=
  match x with
  | S754_zero true => True
  | S754_finite true _ e => (e <= -51)%Z
  | _ => False
  end.

(** The numbers [1] and [1000]. *)
Definition SF_one : spec_float := S754_finite false 4503599627370496 (-52).

Definition SF_1000 : spec_float := S754_finite false 8796093022208000 (-43).

(** ** The statements of the specification, as definitions *)

Section Statements.
Context {num : Type} {N : Number num}.
Local Open Scope js_scope.

(** "the first point where f(x) >= 0 scanning downward": at the least, the
    value returned is then a point where [f] is not negative. *)
Definition returns_nonnegative_point : Prop :=
  forall (f : num -> num) (fuel : nat) (r : num),
    seekZero (pure_fn f) fuel tt = (Returned r, tt) ->
    (f r <? of_Z 0) = false.

(** The sums of the Newton update, term [0] first:
    [sigma n t = ((0 + t 0) + t 1) + ... + t (n-1)]. *)
Fixpoint sigma (n : nat) (term : nat -> num) : num :=
  match n with
  | O => of_Z 0
  | S n' => sigma n' term + term n'
  end.

(** [NPV(r) = sum of cf[i] / (1+r)^durs[i]] *)
Definition NPV (cfs durs : list num) (r : num) : num :=
  sigma (length cfs) (fun i => nth i cfs nan / pow (of_Z 1 + r) (nth i durs nan)).

(** [NPV'(r) = sum of -cf[i] * durs[i] * (1+r)^(-1-durs[i])] *)
Definition NPV' (cfs durs : list num) (r : num) : num :=
  sigma (length cfs)
    (fun i => - nth i cfs nan * nth i durs nan
              * pow (of_Z 1 + r) (of_Z (-1) - nth i durs nan)).

(** [guess_next = guess - NPV(guess) / NPV'(guess)], and the guess after
    [k] updates. *)
Definition newton_update (cfs durs : list num) (g : num) : num :=
  g - NPV cfs durs g / NPV' cfs durs g.

Fixpoint newton_guess (cfs durs : list num) (g0 : num) (k : nat) : num :=
  match k with
  | O => g0
  | S k' => newton_update cfs durs (newton_guess cfs durs g0 k')
  end.

(** Two guesses agree when their five-decimal texts are the same text. *)
Definition agree (a b : num) : Prop := toFixed5 a = toFixed5 b.

(** The series has a strictly positive entry, a strictly negative one. *)
Definition has_positive (cfs : list num) : Prop :=
  exists v, In v cfs /\ (v >? of_Z 0) = true.

Definition has_negative (cfs : list num) : Prop :=
  exists v, In v cfs /\ (v <? of_Z 0) = true.

(** An objective under observation: the store also counts the calls made
    and the calls that returned a value. *)
Definition observed {St : Type} (fn : num -> M St num) : num -> M (St * (nat * nat)) num :=
  fun x s =>
    let '(st, (called, returned)) := s in
    match fn x st with
    | (Returned y, st') => (Returned y, (st', (S called, S returned)))
    | (Threw e, st') => (Threw e, (st', (S called, returned)))
    | (OutOfFuel, st') => (OutOfFuel, (st', (S called, returned)))
    end.

(** How often the objective of [IRR] was called, and how often it returned
    a value, in the search that [IRR] runs on a series that passes the
    sign check. *)
Definition IRR_evaluations (fuel : nat) (cfs : CashFlow num) : nat * nat :=
  snd (snd (seekZero (observed (npv (depth cfs) (cashFlow cfs))) fuel (1%Z, (0, 0))%nat)).

(** "the objective can be evaluated successfully at most d - 1 times" *)
Definition at_most_depth_minus_one : Prop :=
  forall (fuel : nat) (cfs : CashFlow num),
    has_positive (cashFlow cfs) -> has_negative (cashFlow cfs) ->
    (Z.of_nat (snd (IRR_evaluations fuel cfs)) <= depth cfs - 1)%Z.

(** "fed back into the embedded NPV objective, [the rate] should yield a
    value within rounding tolerance of zero", for a tolerance [tol]. *)
Definition IRR_root_within (tol : num) : Prop :=
  forall (cfs : CashFlow num) (r : num) (tries : Z),
    has_positive (cashFlow cfs) -> has_negative (cashFlow cfs) ->
    IRR cfs (Returned r, tries) ->
    (abs (npv_value (cashFlow cfs) r) <? tol) = true.

(** "for every cash flow series containing at least one positive and one
    negative value and every finite depth, IRR terminates: it either
    returns a number or raises an error" *)
Definition IRR_always_ends : Prop :=
  forall cfs : CashFlow num,
    has_positive (cashFlow cfs) -> has_negative (cashFlow cfs) ->
    exists result, IRR cfs result.

(** "raise the sign-requirement error if and only if the cash flow series
    lacks a strictly positive entry or lacks a strictly negative entry",
    of [XIRR]. *)
Definition XIRR_sign_error_iff : Prop :=
  forall (cfs : list num) (dts : list Date) (guess : option num),
    fst (XIRR cfs dts guess) = Threw InvalidCashFlowSigns <->
    (~ has_positive cfs \/ ~ has_negative cfs).

(** "the divisor sum_fdx computed by sumEq is nonzero at every iteration",
    already at the first. *)
Definition divisor_nonzero : Prop :=
  forall (cfs : list num) (dts : list Date) (guess : num),
    length cfs = length dts ->
    has_positive cfs -> has_negative cfs ->
    sum_fdx cfs (durations dts) guess <> of_Z 0.

End Statements.

(** "round(|dates[i] - dates[0]| in days)": the whole number of days nearest
    to a span of [ms] milliseconds, half a day counting as a day. *)
Definition nearest_days (ms : Z) : Z := (Z.abs ms + 43200000) / 86400000.

(** Both loops of [seekZero] are this loop: [while (test(fn(x))) x = step(x)]. *)
Fixpoint scan_while {num St : Type} (test : num -> bool) (step : num -> num)
  (fn : num -> M St num) (fuel : nat) (x : num) : M St num :=
  match fuel with
  | O => fun s => (OutOfFuel, s)
  | S fuel' =>
      y <- fn x ;;
      if test y then scan_while test step fn fuel' (step x) else ret x
  end.

(** ** Inputs of the examples *)

(** The objective [f(x) = 1.995 - x]. *)
Definition line_1995 {num : Type} {N : Number num} (x : num) : num :=
  sub (div (of_Z 1995) (of_Z 1000)) x.

(** The call of the test suite: [IRR({depth: 10000, cashFlow: [-6, 297, 307]})]. *)
Definition test_series : CashFlow float :=
  {| depth := 10000; cashFlow := [-6; 297; 307]%float |}.

(** Money received first and paid back later: [[100, -110]]; the rate at
    which its net present value is zero is 10 percent. *)
Definition loan_series : CashFlow float :=
  {| depth := 10200; cashFlow := [100; -110]%float |}.

(** A large investment: [[-100000000, 102000000]], at 2 percent. *)
Definition large_series : CashFlow float :=
  {| depth := 10; cashFlow := [-100000000; 102000000]%float |}.

(** Money received and a small part paid back: [[1000, -1]], whose net
    present value is positive at every rate of the upward scan; with the
    depth [2^53]. *)
Definition runaway_series : CashFlow float :=
  {| depth := 2 ^ 53; cashFlow := [1000; -1]%float |}.

(** A search that may not evaluate at all: [depth = 0]. *)
Definition no_budget_series : CashFlow float :=
  {| depth := 0; cashFlow := [-1; 1]%float |}.

(** [XIRR([-1000, 1200], [d0, d0 + 365 days], 0.1)], with [d0] the epoch. *)
Definition one_year_flows : list float := [-1000; 1200]%float.

Definition one_year_dates : list Date := [0; 365 * 86400000]%Z.

(** The same flows, both on one day. *)
Definition same_day_dates : list Date := [1000; 1000]%Z.

Definition one_year_flows_exact : list Q := [-1000 # 1; 1200 # 1].

(** [XIRR([-5, 0, 1], [d0, d0 + 365 days, d0 + 730 days])]: from the guess
    [0] the Newton step leads to [-2], and from [-2] back to [0]. *)
Definition cycle_flows : list float := [-5; 0; 1]%float.

Definition cycle_dates : list Date := [0; 365 * 86400000; 730 * 86400000]%Z.

(** ** The closed formulas of the class

    [PP], [AM], [DF], [CI] and [PMT] of [Finance].  They use three
    operations more than the root finders do. *)

Class NumberOps (num : Type) : Type := {
  ceil : num -> num;                (* [Math.ceil] *)
  to_int32 : num -> Z;              (* the 32-bit integer that [x | 0] is *)
  strict_eq : num -> num -> bool    (* [a === b] *)
}.

(** [ToInt32]: towards zero, then modulo [2^32] into [-2^31 .. 2^31 - 1]. *)
Definition wrap_int32 (z : Z) : Z := (z + 2 ^ 31) mod 2 ^ 32 - 2 ^ 31.

Definition Q_truncate (q : Q) : Z :=
  match (q ?= 0)%Q with Lt => Qceiling q | _ => Qfloor q end.

#[export] Instance Q_NumberOps : NumberOps Q := {
  ceil q := inject_Z (Qceiling q);
  to_int32 q := wrap_int32 (Q_truncate q);
  strict_eq := Qeq_bool
}.

(** [Math.ceil]: infinities, NaN, zeros and integers are returned as they
    are; between [-1] and [0] the result is [-0]. *)
Definition float_ceil (x : float) : float :=
  match Z_of_float x, Q_of_float x with
  | None, Some q =>
      let z := Qceiling q in
      if (z =? 0)%Z then PrimFloat.neg_zero else float_of_Z z
  | _, _ => x
  end.

(** [x | 0]: NaN and the infinities give [0]. *)
Definition float_to_int32 (x : float) : Z :=
  match Q_of_float x with
  | Some q => wrap_int32 (Q_truncate q)
  | None => 0
  end.

#[export] Instance float_NumberOps : NumberOps float := {
  ceil := float_ceil;
  to_int32 := float_to_int32;
  strict_eq := PrimFloat.eqb
}.

(** An array with holes, as [new Array(n)] makes it, and [a[i] = v]. *)
Definition new_Array {A : Type} (n : nat) : list (option A) := repeat None n.

Definition array_set {A : Type} (a : list (option A)) (i : nat) (v : A) : list (option A) :=
  if (i <? length a)%nat then firstn i a ++ Some v :: skipn (S i) a
  else a ++ repeat None (i - length a) ++ [Some v].

(** What [DF] gives: an array, or the [RangeError] of [new Array] at a
    length that is none. *)
Inductive array_result (A : Type) : Type :=
| ArrayOf (a : list (option A))
| RangeError.

Arguments RangeError {A}.

Module Finance.
Section Formulas.
Context {num : Type} {N : Number num} {Ops : NumberOps num}.
Local Open Scope js_scope.

(** A value that [if (!v)] takes for false: an argument left out, [0],
    [-0] or NaN, the numbers neither below nor above zero. *)
Definition falsy (v : option num) : bool :=
  match v with
  | None => true
  | Some x => negb (x <? of_Z 0) && negb (x >? of_Z 0)
  end.

(** The loop of [PP] over the indices left; [None] is falling off its end,
    where the method returns [undefined]. *)
Fixpoint PP_loop (cfs : list num) (indices : list nat)
  (cumulativeCashFlow yearsCounter : num) : option num :=
  match indices with
  | [] => None
  | i :: indices' =>
      let cumulativeCashFlow := cumulativeCashFlow + nth i cfs nan in
      if cumulativeCashFlow >? of_Z 0
      then Some (yearsCounter + (cumulativeCashFlow - nth i cfs nan) / nth i cfs nan)
      else PP_loop cfs indices' cumulativeCashFlow (yearsCounter + of_Z 1)
  end.

Definition PP (numOfPeriods : num) (cfs : list num) : option num :=
  if strict_eq numOfPeriods (of_Z 0)
  then Some (abs (nth 0 cfs nan) / nth 1 cfs nan)
  else PP_loop cfs (seq 1 (length cfs - 1)) (nth 0 cfs nan) (of_Z 1).

(** [AM]; beside the value, what it wrote with [console.log]. *)
Definition AM (principal rate period : num) (yearOrMonth : option num)
  (payAtBeginning : option bool) : num * list string :=
  let ratePerPeriod := rate / of_Z 12 / of_Z 100 in
  let buildNumerator (numInterestAccruals : num) : num :=
    let numInterestAccruals :=
      match payAtBeginning with
      | Some true => numInterestAccruals - of_Z 1
      | _ => numInterestAccruals
      end in
    ratePerPeriod * pow (of_Z 1 + ratePerPeriod) numInterestAccruals in
  let finish (numerator denominator : num) : num * list string :=
    let am := principal * (numerator / denominator) in
    (round (am * of_Z 100) / of_Z 100, []) in
  if falsy yearOrMonth then
    finish (buildNumerator (period * of_Z 12))
           (pow (of_Z 1 + ratePerPeriod) (period * of_Z 12) - of_Z 1)
  else if strict_eq (match yearOrMonth with Some y => y | None => nan end) (of_Z 1) then
    finish (buildNumerator period)
           (pow (of_Z 1 + ratePerPeriod) period - of_Z 1)
  else (of_Z 0, ["not defined"%string]).

(** [DF]; [numOfPeriods] is an integer. *)
Definition DF (rate : num) (numOfPeriods : Z) : array_result num :=
  if ((numOfPeriods - 1 <? 0) || (2 ^ 32 - 1 <? numOfPeriods - 1))%Z then RangeError
  else
    let dfs := new_Array (Z.to_nat (numOfPeriods - 1)) in
    let onePlusRate := of_Z 1 + rate / of_Z 100 in
    ArrayOf
      (fold_left
         (fun (dfs : list (option num)) (i : nat) =>
            let discountFactor :=
              of_Z 1 / pow onePlusRate (of_Z (Z.of_nat i - 1)) in
            let roundedDiscountFactor :=
              ceil (discountFactor * of_Z 1000) / of_Z 1000 in
            array_set dfs (i - 1) roundedDiscountFactor)
         (seq 1 (Z.to_nat numOfPeriods - 1)) dfs).

Definition CI (rate numOfCompoundings principal numOfPeriods : num) : num :=
  let ratePerCompounding := (rate / of_Z 100) / numOfCompoundings in
  let onePlusRatePerCompounding := of_Z 1 + ratePerCompounding in
  let compoundings := numOfCompoundings * numOfPeriods in
  let CI := principal * pow onePlusRatePerCompounding compoundings in
  of_Z (to_int32 (CI * of_Z 100)) / of_Z 100.

Definition PMT (rate numOfPayments principal : num) : num :=
  let monthlyRate := rate / of_Z 1200 in
  let pmt := - (principal * monthlyRate)
             / (of_Z 1 - pow (of_Z 1 + monthlyRate) (- numOfPayments)) in
  round (pmt * of_Z 100) / of_Z 100.

(** The state of the loop of [PP] when it reaches index [i + 1]: the sum
    of the flows [0 .. i], and the counter, [1] stepped up [i] times. *)
Fixpoint cumulative (cfs : list num) (i : nat) : num :=
  match i with
  | O => nth 0 cfs nan
  | S j => cumulative cfs j + nth (S j) cfs nan
  end.

Fixpoint years (i : nat) : num :=
  match i with
  | O => of_Z 1
  | S j => years j + of_Z 1
  end.


End Formulas.
End Finance.

(** An input of the examples of the closed formulas: a project that never
    pays back. *)
Definition unpaid_flows : list float := [-50; 10; 13]%float.

(** * Properties *)

(** ** The binary64 functions at known values *)

(** [Math.round] of 2.5, -2.5, -0.5, -0.25, of the float just below 0.5
    and of minus infinity. *)
Example float_round_values :
  map float_round [2.5; -2.5; -0.5; -0.25; 0x1.fffffffffffffp-2; neg_infinity]%float
  = [3; -2; -0; -0; 0; neg_infinity]%float.
Proof. vm_compute. reflexivity. Qed.

(** [toFixed(5)] of 0.5, -1.5, -0, [2^-20], [-2^-20], 1234567.125, NaN and
    minus infinity. *)
Example float_toFixed5_values :
  map float_toFixed5
    [0.5; -1.5; -0; 0x1p-20; -0x1p-20; 1234567.125; PrimFloat.nan; neg_infinity]%float
  = ["0.50000"; "-1.50000"; "0.00000"; "0.00000"; "-0.00000"; "1234567.12500";
     "NaN"; "-Infinity"]%string.
Proof. vm_compute. reflexivity. Qed.

(** The literal [0.01] is the float nearest to one hundredth. *)
Example cent_value : @cent float float_Number = 0x1.47ae147ae147bp-7%float.
Proof. vm_compute. reflexivity. Qed.

(** ** The monad and the scans *)

Section ScanFacts.
Context {num : Type} {N : Number num}.

Lemma up_from_shift (x : num) (n : nat) :
  up_from (add x (of_Z 1)) n = up_from x (S n).
Proof.
  induction n as [|n IH]; simpl; [reflexivity|].
  rewrite IH. reflexivity.
Qed.

Lemma down_shift (x : num) (m : nat) :
  down (sub x cent) m = down x (S m).
Proof.
  induction m as [|m IH]; simpl; [reflexivity|].
  rewrite IH. reflexivity.
Qed.

(** One iteration of either loop is one call of the objective. *)
Lemma scan_up_step {St : Type} (fn : num -> M St num) (fuel : nat) (x : num) (s : St) :
  scan_up fn (S fuel) x s =
  match fn x s with
  | (Returned y, s') =>
      if gt y (of_Z 0) then scan_up fn fuel (add x (of_Z 1)) s' else (Returned x, s')
  | (Threw e, s') => (Threw e, s')
  | (OutOfFuel, s') => (OutOfFuel, s')
  end.
Proof.
  simpl. unfold bind. destruct (fn x s) as [[y|e|] s']; try reflexivity.
  destruct (gt y (of_Z 0)); reflexivity.
Qed.

Lemma scan_down_step {St : Type} (fn : num -> M St num) (fuel : nat) (x : num) (s : St) :
  scan_down fn (S fuel) x s =
  match fn x s with
  | (Returned y, s') =>
      if lt y (of_Z 0) then scan_down fn fuel (sub x cent) s' else (Returned x, s')
  | (Threw e, s') => (Threw e, s')
  | (OutOfFuel, s') => (OutOfFuel, s')
  end.
Proof.
  simpl. unfold bind. destruct (fn x s) as [[y|e|] s']; try reflexivity.
  destruct (lt y (of_Z 0)); reflexivity.
Qed.

Lemma seekZero_unfold {St : Type} (fn : num -> M St num) (fuel : nat) (s : St) :
  seekZero fn fuel s =
  match scan_up fn fuel (of_Z 1) s with
  | (Returned x, s') =>
      match scan_down fn fuel x s' with
      | (Returned x', s'') => (Returned (add x' cent), s'')
      | (Threw e, s'') => (Threw e, s'')
      | (OutOfFuel, s'') => (OutOfFuel, s'')
      end
  | (Threw e, s') => (Threw e, s')
  | (OutOfFuel, s') => (OutOfFuel, s')
  end.
Proof.
  unfold seekZero, bind.
  destruct (scan_up fn fuel (of_Z 1) s) as [[x|e|] s']; reflexivity.
Qed.

(** *** A pure objective *)

Section Pure.
Context {St : Type}.
Variable f : num -> num.

Lemma scan_up_pure (fuel : nat) : forall (x r : num) (s s' : St),
  scan_up (pure_fn f) fuel x s = (Returned r, s') <->
  exists n, (n < fuel)%nat /\
    (forall k, (k < n)%nat -> gt (f (up_from x k)) (of_Z 0) = true) /\
    gt (f (up_from x n)) (of_Z 0) = false /\
    r = up_from x n /\ s' = s.
Proof.
  induction fuel as [|fuel IH]; intros x r s s'.
  - simpl. split; [discriminate|]. intros (n & Hn & _). lia.
  - rewrite scan_up_step. unfold pure_fn at 1, ret.
    destruct (gt (f x) (of_Z 0)) eqn:Hx.
    + rewrite IH. split.
      * intros (n & Hn & Hlt & Hstop & Hr & Hs).
        exists (S n). split; [lia|]. split; [|split; [|split]].
        -- intros [|k] Hk; [exact Hx|]. rewrite <- up_from_shift. apply Hlt. lia.
        -- rewrite <- up_from_shift. exact Hstop.
        -- rewrite <- up_from_shift. exact Hr.
        -- exact Hs.
      * intros (n & Hn & Hlt & Hstop & Hr & Hs).
        destruct n as [|n]; [simpl in Hstop; congruence|].
        exists n. split; [lia|]. split; [|split; [|split]].
        -- intros k Hk. rewrite up_from_shift. apply Hlt. lia.
        -- rewrite up_from_shift. exact Hstop.
        -- rewrite up_from_shift. exact Hr.
        -- exact Hs.
    + split.
      * intros Heq. injection Heq as <- <-.
        exists 0%nat. split; [lia|]. split; [|split; [|split]].
        -- intros k Hk. lia.
        -- exact Hx.
        -- reflexivity.
        -- reflexivity.
      * intros (n & Hn & Hlt & Hstop & Hr & Hs).
        destruct n as [|n]; [simpl in Hr; congruence|].
        specialize (Hlt 0%nat ltac:(lia)). simpl in Hlt. congruence.
Qed.

Lemma scan_down_pure (fuel : nat) : forall (x r : num) (s s' : St),
  scan_down (pure_fn f) fuel x s = (Returned r, s') <->
  exists m, (m < fuel)%nat /\
    (forall j, (j < m)%nat -> lt (f (down x j)) (of_Z 0) = true) /\
    lt (f (down x m)) (of_Z 0) = false /\
    r = down x m /\ s' = s.
Proof.
  induction fuel as [|fuel IH]; intros x r s s'.
  - simpl. split; [discriminate|]. intros (n & Hn & _). lia.
  - rewrite scan_down_step. unfold pure_fn at 1, ret.
    destruct (lt (f x) (of_Z 0)) eqn:Hx.
    + rewrite IH. split.
      * intros (m & Hm & Hlt & Hstop & Hr & Hs).
        exists (S m). split; [lia|]. split; [|split; [|split]].
        -- intros [|j] Hj; [exact Hx|]. rewrite <- down_shift. apply Hlt. lia.
        -- rewrite <- down_shift. exact Hstop.
        -- rewrite <- down_shift. exact Hr.
        -- exact Hs.
      * intros (m & Hm & Hlt & Hstop & Hr & Hs).
        destruct m as [|m]; [simpl in Hstop; congruence|].
        exists m. split; [lia|]. split; [|split; [|split]].
        -- intros j Hj. rewrite down_shift. apply Hlt. lia.
        -- rewrite down_shift. exact Hstop.
        -- rewrite down_shift. exact Hr.
        -- exact Hs.
    + split.
      * intros Heq. injection Heq as <- <-.
        exists 0%nat. split; [lia|]. split; [|split; [|split]].
        -- intros j Hj. lia.
        -- exact Hx.
        -- reflexivity.
        -- reflexivity.
      * intros (m & Hm & Hlt & Hstop & Hr & Hs).
        destruct m as [|m]; [simpl in Hr; congruence|].
        specialize (Hlt 0%nat ltac:(lia)). simpl in Hlt. congruence.
Qed.

Lemma scan_up_pure_never_throws (fuel : nat) : forall (x : num) (s s' : St) (e : error),
  scan_up (pure_fn f) fuel x s <> (Threw e, s').
Proof.
  induction fuel as [|fuel IH]; intros x s s' e; [discriminate|].
  rewrite scan_up_step. unfold pure_fn at 1, ret.
  destruct (gt (f x) (of_Z 0)); [apply IH | discriminate].
Qed.

(** Nothing in the scans themselves bounds them. *)
Lemma scan_up_runs_on (fuel : nat) : forall (x : num) (s : St),
  (forall y, gt (f y) (of_Z 0) = true) ->
  scan_up (pure_fn f) fuel x s = (OutOfFuel, s).
Proof.
  induction fuel as [|fuel IH]; intros x s Hpos; [reflexivity|].
  rewrite scan_up_step. unfold pure_fn at 1, ret. rewrite Hpos. apply IH, Hpos.
Qed.

Lemma scan_down_runs_on (fuel : nat) : forall (x : num) (s : St),
  (forall y, lt (f y) (of_Z 0) = true) ->
  scan_down (pure_fn f) fuel x s = (OutOfFuel, s).
Proof.
  induction fuel as [|fuel IH]; intros x s Hneg; [reflexivity|].
  rewrite scan_down_step. unfold pure_fn at 1, ret. rewrite Hneg. apply IH, Hneg.
Qed.

End Pure.
End ScanFacts.

(** ** seekZero *)

Section SeekZeroFacts.
Context {num : Type} {N : Number num}.

(** C1, as amended.  [seekZero] on an objective [f] is this algorithm and no
    other: from [x = 1] it steps by [+1] while [f(x) > 0]; from the point
    [up n] where that fails it steps by [-0.01] while [f(x) < 0]; and from
    the point [x = down (up n) m] where that fails, the first point of the
    downward scan at which [f] is not negative, it returns [x + 0.01].  The
    value returned is thus one step above that point, not the point. *)
Theorem seekZero_algorithm {St : Type} (f : num -> num) (fuel : nat) (r : num) (s s' : St) :
  seekZero (pure_fn f) fuel s = (Returned r, s') <->
  exists n m, (n < fuel)%nat /\ (m < fuel)%nat /\
    (forall k, (k < n)%nat -> gt (f (up k)) (of_Z 0) = true) /\
    gt (f (up n)) (of_Z 0) = false /\
    (forall j, (j < m)%nat -> lt (f (down (up n) j)) (of_Z 0) = true) /\
    lt (f (down (up n) m)) (of_Z 0) = false /\
    r = add (down (up n) m) cent /\ s' = s.
Proof.
  rewrite seekZero_unfold. split.
  - destruct (scan_up (pure_fn f) fuel (of_Z 1) s) as [[x|e|] s1] eqn:Hup; try discriminate.
    destruct (scan_down (pure_fn f) fuel x s1) as [[x'|e|] s2] eqn:Hdown; try discriminate.
    intros Heq. injection Heq as <- <-.
    apply scan_up_pure in Hup. destruct Hup as (n & Hn & Hpos & Hstop & -> & ->).
    apply scan_down_pure in Hdown. destruct Hdown as (m & Hm & Hneg & Hstop' & -> & ->).
    exists n, m. unfold up. repeat (split; [assumption|]). split; reflexivity.
  - intros (n & m & Hn & Hm & Hpos & Hstop & Hneg & Hstop' & -> & ->).
    assert (Hup : scan_up (pure_fn f) fuel (of_Z 1) s = (Returned (up n), s)).
    { apply scan_up_pure. exists n. unfold up in *. repeat (split; [assumption|]).
      split; reflexivity. }
    rewrite Hup.
    assert (Hdown : scan_down (pure_fn f) fuel (up n) s = (Returned (down (up n) m), s)).
    { apply scan_down_pure. exists m. repeat (split; [assumption|]). split; reflexivity. }
    rewrite Hdown. reflexivity.
Qed.

End SeekZeroFacts.

(** In binary64: [f(1) > 0], [f(2) < 0], [f(1.99) >= 0]; the downward scan
    stops at [1.99], and [seekZero] returns [2]. *)
Example seekZero_line_1995 :
  seekZero (pure_fn line_1995) 3 tt = (Returned 2%float, tt)
  /\ down (up 1) 1 = 0x1.fd70a3d70a3d7p+0%float      (* 1.99 *)
  /\ lt (line_1995 (down (up 1) 1)) (of_Z 0) = false
  /\ lt (line_1995 2%float) (of_Z 0) = true.
Proof. vm_compute. repeat split. Qed.

(** C1, the counterexample: the value [seekZero] returns need not be a
    point where the objective is non-negative; on [f(x) = 1.995 - x] it
    returns [2], where [f] is negative. *)
Lemma seekZero_returns_negative_point :
  ~ returns_nonnegative_point (N := float_Number).
Proof.
  intros Hclaim.
  specialize (Hclaim line_1995 3%nat 2%float).
  assert (Hrun : seekZero (pure_fn line_1995) 3 tt = (Returned 2%float, tt))
    by (vm_compute; reflexivity).
  specialize (Hclaim Hrun). vm_compute in Hclaim. discriminate.
Qed.

(** ** The objective of IRR and its counter *)

Section Loops.
Context {num St : Type} {N : Number num}.

Lemma scan_up_while (fn : num -> M St num) (fuel : nat) : forall (x : num) (s : St),
  scan_up fn fuel x s =
  scan_while (fun y => gt y (of_Z 0)) (fun x => add x (of_Z 1)) fn fuel x s.
Proof.
  induction fuel as [|fuel IH]; intros x s; [reflexivity|].
  rewrite scan_up_step. simpl. unfold bind.
  destruct (fn x s) as [[y|e|] s']; try reflexivity.
  destruct (gt y (of_Z 0)); [apply IH | reflexivity].
Qed.

Lemma scan_down_while (fn : num -> M St num) (fuel : nat) : forall (x : num) (s : St),
  scan_down fn fuel x s =
  scan_while (fun y => lt y (of_Z 0)) (fun x => sub x cent) fn fuel x s.
Proof.
  induction fuel as [|fuel IH]; intros x s; [reflexivity|].
  rewrite scan_down_step. simpl. unfold bind.
  destruct (fn x s) as [[y|e|] s']; try reflexivity.
  destruct (lt y (of_Z 0)); [apply IH | reflexivity].
Qed.

Lemma up_from_iter (x : num) (n : nat) :
  up_from x n = Nat.iter n (fun x => add x (of_Z 1)) x.
Proof. induction n as [|n IH]; simpl; [reflexivity | now rewrite IH]. Qed.

Lemma down_iter (x : num) (m : nat) :
  down x m = Nat.iter m (fun x => sub x cent) x.
Proof. induction m as [|m IH]; simpl; [reflexivity | now rewrite IH]. Qed.

Lemma iter_shift (step : num -> num) (k : nat) (x : num) :
  Nat.iter k step (step x) = Nat.iter (S k) step x.
Proof. induction k as [|k IH]; simpl; [reflexivity | now rewrite IH]. Qed.

(** Observation changes nothing of what is observed. *)
Lemma scan_while_observed (test : num -> bool) (step : num -> num)
  (fn : num -> M St num) (fuel : nat) :
  forall x s c o s' c',
    scan_while test step (observed fn) fuel x (s, c) = (o, (s', c')) ->
    scan_while test step fn fuel x s = (o, s').
Proof.
  induction fuel as [|fuel IH]; intros x s [called returned] o s' c'; simpl.
  - intros Heq. injection Heq as <- <- _. reflexivity.
  - unfold bind, observed at 1.
    destruct (fn x s) as [[y|e|] s1].
    + destruct (test y).
      * apply IH.
      * unfold ret. intros Heq. injection Heq as <- <- _. reflexivity.
    + intros Heq. injection Heq as <- <- _. reflexivity.
    + intros Heq. injection Heq as <- <- _. reflexivity.
Qed.

End Loops.

Section NpvRuns.
Context {num : Type} {N : Number num}.
Variables (d : Z) (cf : list num).

(** From a count up to [2^53] the counter goes up by one, but not past
    [2^53]. *)
Lemma next_try_min (n : Z) : (n <= 2 ^ 53)%Z -> next_try n = Z.min (n + 1) (2 ^ 53).
Proof. intros Hn. unfold next_try. destruct (Z.ltb_spec n (2 ^ 53)); lia. Qed.

Lemma next_try_bounds (n : Z) :
  (n <= next_try n <= n + 1)%Z /\ ((n < 2 ^ 53)%Z -> next_try n = (n + 1)%Z).
Proof. unfold next_try. destruct (Z.ltb_spec n (2 ^ 53)); lia. Qed.

(** The counter is stepped on every call, and the call throws exactly
    when the counter has passed [depth]. *)
Lemma npv_call (rate : num) (numberOfTries : Z) :
  npv d cf rate numberOfTries =
  (if (next_try numberOfTries >? d)%Z then Threw SearchExhausted
   else Returned (npv_value cf rate),
   next_try numberOfTries).
Proof. unfold npv. destruct (next_try numberOfTries >? d)%Z; reflexivity. Qed.

Variables (test : num -> bool) (step : num -> num).

(** A loop over the objective, observed: [calls] calls were made, [succ]
    of them returned a value; the counter has moved by [calls], up to
    [2^53]; a call that returned left the counter at [depth] at most. *)
Lemma scan_while_npv (fuel : nat) :
  forall x n0 c0 r0 o n1 c1 r1,
    (n0 <= 2 ^ 53)%Z ->
    scan_while test step (observed (npv d cf)) fuel x (n0, (c0, r0)) = (o, (n1, (c1, r1))) ->
    exists calls succ : nat,
      c1 = (c0 + calls)%nat /\ r1 = (r0 + succ)%nat /\
      n1 = Z.min (n0 + Z.of_nat calls) (2 ^ 53) /\
      (succ = 0%nat \/ (Z.min (n0 + Z.of_nat succ) (2 ^ 53) <= d)%Z) /\
      match o with
      | Returned r =>
          exists k, calls = S k /\ succ = S k /\ (k < fuel)%nat /\
            (forall i, (i < k)%nat -> test (npv_value cf (Nat.iter i step x)) = true) /\
            test (npv_value cf (Nat.iter k step x)) = false /\
            r = Nat.iter k step x
      | Threw e => e = SearchExhausted /\ calls = S succ /\ (d < n1)%Z
      | OutOfFuel => calls = fuel /\ succ = fuel
      end.
Proof.
  induction fuel as [|fuel IH]; intros x n0 c0 r0 o n1 c1 r1 Hn0; simpl.
  - intros Heq. injection Heq as <- <- <- <-.
    exists 0%nat, 0%nat. repeat split; lia.
  - unfold bind, observed at 1. rewrite npv_call, (next_try_min Hn0).
    destruct (Z.gtb_spec (Z.min (n0 + 1) (2 ^ 53)) d) as [Hgt|Hle].
    + intros Heq. injection Heq as <- <- <- <-.
      exists 1%nat, 0%nat.
      split; [lia|]. split; [lia|]. split; [lia|]. split; [left; reflexivity|].
      split; [reflexivity|]. split; [reflexivity|]. lia.
    + destruct (test (npv_value cf x)) eqn:Hx.
      * intros Hrun. apply IH in Hrun; [|lia].
        destruct Hrun as (calls & succ & -> & -> & -> & Hsucc & Ho).
        exists (S calls), (S succ).
        split; [lia|]. split; [lia|]. split; [lia|]. split; [right; lia|].
        destruct o as [r|e|].
        -- destruct Ho as (k & -> & -> & Hk & Hpath & Hstop & ->).
           exists (S k). split; [reflexivity|]. split; [reflexivity|]. split; [lia|].
           split; [|split].
           ++ intros [|i] Hi; [exact Hx|]. rewrite <- iter_shift. apply Hpath. lia.
           ++ rewrite <- iter_shift. exact Hstop.
           ++ rewrite <- iter_shift. reflexivity.
        -- destruct Ho as (-> & -> & Hd).
           split; [reflexivity|]. split; [reflexivity|]. lia.
        -- destruct Ho as (-> & ->). split; reflexivity.
      * unfold ret. intros Heq. injection Heq as <- <- <- <-.
        exists 1%nat, 1%nat.
        split; [lia|]. split; [lia|]. split; [lia|]. split; [right; lia|].
        exists 0%nat. split; [reflexivity|]. split; [reflexivity|]. split; [lia|].
        split; [|split].
        -- intros i Hi. lia.
        -- exact Hx.
        -- reflexivity.
Qed.

End NpvRuns.

(** The four components of an observed run, without computing in them. *)
Ltac observed_run_eq H :=
  apply pair_equal_spec in H; destruct H as [<- H];
  apply pair_equal_spec in H; destruct H as [<- H];
  apply pair_equal_spec in H; destruct H as [<- <-].

Section SearchRuns.
Context {num : Type} {N : Number num}.

Lemma seekZero_observed {St : Type} (fn : num -> M St num) (fuel : nat) :
  forall s c o s' c',
    seekZero (observed fn) fuel (s, c) = (o, (s', c')) ->
    seekZero fn fuel s = (o, s').
Proof.
  intros s c o s' c'. rewrite !seekZero_unfold, !scan_up_while.
  destruct (scan_while _ _ (observed fn) fuel (of_Z 1) (s, c)) as [o1 [s1 c1]] eqn:Hup.
  apply scan_while_observed in Hup. rewrite Hup.
  destruct o1 as [x|e|].
  - rewrite !scan_down_while.
    destruct (scan_while _ _ (observed fn) fuel x (s1, c1)) as [o2 [s2 c2]] eqn:Hdown.
    apply scan_while_observed in Hdown. rewrite Hdown.
    destruct o2 as [x'|e|]; intros Heq; injection Heq as <- <- _; reflexivity.
  - intros Heq; injection Heq as <- <- _; reflexivity.
  - intros Heq; injection Heq as <- <- _; reflexivity.
Qed.

Variables (d : Z) (cf : list num).

(** The whole search of [IRR], observed from [numberOfTries = 1]. *)
Lemma seekZero_npv (fuel : nat) :
  forall o n1 called returned,
    seekZero (observed (npv d cf)) fuel (1%Z, (0, 0)%nat) = (o, (n1, (called, returned))) ->
    n1 = Z.min (1 + Z.of_nat called) (2 ^ 53) /\
    (returned = 0%nat \/ (Z.min (1 + Z.of_nat returned) (2 ^ 53) <= d)%Z) /\
    match o with
    | Returned r =>
        exists n m, called = (n + m + 2)%nat /\ returned = called /\
          (n < fuel)%nat /\ (m < fuel)%nat /\
          (forall k, (k < n)%nat -> gt (npv_value cf (up k)) (of_Z 0) = true) /\
          gt (npv_value cf (up n)) (of_Z 0) = false /\
          (forall j, (j < m)%nat -> lt (npv_value cf (down (up n) j)) (of_Z 0) = true) /\
          lt (npv_value cf (down (up n) m)) (of_Z 0) = false /\
          r = add (down (up n) m) cent
    | Threw e => e = SearchExhausted /\ called = S returned /\ (d < n1)%Z
    | OutOfFuel => (fuel <= returned)%nat /\ returned = called
    end.
Proof.
  intros o n1 called returned. rewrite seekZero_unfold, scan_up_while.
  destruct (scan_while _ _ (observed (npv d cf)) fuel (of_Z 1) (1%Z, (0, 0)%nat))
    as [o1 [s1 [c1 r1]]] eqn:Hup.
  apply scan_while_npv in Hup; [|lia].
  destruct Hup as (calls1 & succ1 & -> & -> & -> & Hsucc1 & Ho1).
  destruct o1 as [x|e|].
  - destruct Ho1 as (n & -> & -> & Hn & Hpos & Hstop & ->).
    rewrite scan_down_while.
    destruct (scan_while _ _ (observed (npv d cf)) fuel _ _) as [o2 [s2 [c2 r2]]] eqn:Hdown.
    apply scan_while_npv in Hdown; [|lia].
    destruct Hdown as (calls2 & succ2 & -> & -> & -> & Hsucc2 & Ho2).
    destruct o2 as [x'|e|].
    + destruct Ho2 as (m & -> & -> & Hm & Hneg & Hstop' & ->).
      intros Heq. observed_run_eq Heq.
      split; [lia|]. split; [right; lia|].
      exists n, m. unfold up. rewrite !up_from_iter.
      split; [lia|]. split; [lia|]. split; [exact Hn|]. split; [exact Hm|].
      split; [intros k Hk; rewrite up_from_iter; apply Hpos; exact Hk|].
      split; [exact Hstop|].
      split; [intros j Hj; rewrite down_iter; apply Hneg; exact Hj|].
      split; [rewrite down_iter; exact Hstop'|].
      rewrite down_iter. reflexivity.
    + destruct Ho2 as (-> & -> & Hd).
      intros Heq. observed_run_eq Heq.
      split; [lia|]. split; [right; lia|].
      split; [reflexivity|]. split; lia.
    + destruct Ho2 as (-> & ->).
      intros Heq. observed_run_eq Heq.
      split; [lia|]. split; [right; lia|]. split; lia.
  - destruct Ho1 as (-> & -> & Hd).
    intros Heq. observed_run_eq Heq.
    split; [lia|]. split; [lia|]. split; [reflexivity|]. split; lia.
  - destruct Ho1 as (-> & ->).
    intros Heq. observed_run_eq Heq.
    split; [lia|]. split; [lia|]. split; lia.
Qed.

End SearchRuns.

(** ** The sign check *)

Section SignCheck.
Context {num : Type} {N : Number num}.

Lemma sign_flags_from (cfs : list num) : forall positive negative : bool,
  fold_left
    (fun (flags : bool * bool) (value : num) =>
       let (positive, negative) := flags in
       (if gt value (of_Z 0) then true else positive,
        if lt value (of_Z 0) then true else negative))
    cfs (positive, negative) =
  (positive || existsb (fun v => gt v (of_Z 0)) cfs,
   negative || existsb (fun v => lt v (of_Z 0)) cfs).
Proof.
  induction cfs as [|v cfs IH]; intros p n; simpl.
  - rewrite !orb_false_r. reflexivity.
  - rewrite IH.
    destruct (gt v (of_Z 0)), (lt v (of_Z 0)), p, n; reflexivity.
Qed.

Lemma sign_flags_existsb (cfs : list num) :
  sign_flags cfs =
  (existsb (fun v => gt v (of_Z 0)) cfs, existsb (fun v => lt v (of_Z 0)) cfs).
Proof. unfold sign_flags. rewrite sign_flags_from. reflexivity. Qed.

Lemma has_positive_flag (cfs : list num) :
  has_positive cfs <-> fst (sign_flags cfs) = true.
Proof.
  rewrite sign_flags_existsb. simpl. rewrite existsb_exists. reflexivity.
Qed.

Lemma has_negative_flag (cfs : list num) :
  has_negative cfs <-> snd (sign_flags cfs) = true.
Proof.
  rewrite sign_flags_existsb. simpl. rewrite existsb_exists. reflexivity.
Qed.

(** The test [!positive || !negative] of both entry points. *)
Lemma sign_check_fails (cfs : list num) :
  (let (positive, negative) := sign_flags cfs in negb positive || negb negative) = true <->
  (~ has_positive cfs \/ ~ has_negative cfs).
Proof.
  rewrite has_positive_flag, has_negative_flag.
  destruct (sign_flags cfs) as [[|] [|]]; simpl; split; intros Hc;
    try discriminate; try reflexivity; try (left; discriminate); try (right; discriminate);
    destruct Hc as [Hc|Hc]; exfalso; apply Hc; reflexivity.
Qed.

Lemma sign_check_passes (cfs : list num) :
  (let (positive, negative) := sign_flags cfs in negb positive || negb negative) = false <->
  (has_positive cfs /\ has_negative cfs).
Proof.
  rewrite has_positive_flag, has_negative_flag.
  destruct (sign_flags cfs) as [[|] [|]]; simpl; split; intros Hc;
    try discriminate; try reflexivity; try (split; reflexivity);
    destruct Hc as [Hp Hn]; discriminate.
Qed.

(** A series that passes the check is not empty: index [0] exists. *)
Lemma sign_check_nonempty (cfs : list num) :
  has_positive cfs -> (0 < length cfs)%nat.
Proof.
  intros (v & Hin & _). destruct cfs; [contradiction | simpl; lia].
Qed.

Lemma IRR_fuel_checked (fuel : nat) (cfs : CashFlow num) :
  has_positive (cashFlow cfs) -> has_negative (cashFlow cfs) ->
  IRR_fuel fuel cfs =
  (outcome_map (fun z => div (round (mul z (of_Z 100))) (of_Z 100))
     (fst (seekZero (npv (depth cfs) (cashFlow cfs)) fuel 1%Z)),
   snd (seekZero (npv (depth cfs) (cashFlow cfs)) fuel 1%Z)).
Proof.
  intros Hp Hn. unfold IRR_fuel.
  pose proof (proj2 (sign_check_passes (cashFlow cfs)) (conj Hp Hn)) as Hc.
  destruct (sign_flags (cashFlow cfs)) as [positive negative].
  rewrite Hc.
  destruct (seekZero _ fuel 1%Z) as [r n]. reflexivity.
Qed.

Lemma IRR_fuel_unchecked (fuel : nat) (cfs : CashFlow num) :
  (~ has_positive (cashFlow cfs) \/ ~ has_negative (cashFlow cfs)) ->
  IRR_fuel fuel cfs = (Threw InvalidCashFlowSigns, 1%Z).
Proof.
  intros Hbad. unfold IRR_fuel.
  pose proof (proj2 (sign_check_fails (cashFlow cfs)) Hbad) as Hc.
  destruct (sign_flags (cashFlow cfs)) as [positive negative].
  rewrite Hc. reflexivity.
Qed.

End SignCheck.

(** ** Fuel *)

Section Fuel.
Context {num St : Type} {N : Number num}.
Variable fn : num -> M St num.

Lemma scan_while_fuel_mono (test : num -> bool) (step : num -> num) (fuel : nat) :
  forall fuel' x s o s', (fuel <= fuel')%nat ->
    scan_while test step fn fuel x s = (o, s') -> o <> OutOfFuel ->
    scan_while test step fn fuel' x s = (o, s').
Proof.
  induction fuel as [|fuel IH]; intros fuel' x s o s' Hle; simpl.
  - intros Heq Ho. injection Heq as <- <-. contradiction.
  - destruct fuel' as [|fuel']; [lia|]. simpl. unfold bind.
    destruct (fn x s) as [[y|e|] s1]; try (intros; assumption).
    destruct (test y); [|intros; assumption].
    apply IH. lia.
Qed.

Lemma seekZero_fuel_mono (fuel fuel' : nat) (s : St) (o : outcome num) (s' : St) :
  (fuel <= fuel')%nat ->
  seekZero fn fuel s = (o, s') -> o <> OutOfFuel ->
  seekZero fn fuel' s = (o, s').
Proof.
  intros Hle. rewrite !seekZero_unfold, !scan_up_while.
  destruct (scan_while _ _ fn fuel (of_Z 1) s) as [o1 s1] eqn:Hup.
  destruct o1 as [x|e|].
  - apply scan_while_fuel_mono with (fuel' := fuel') in Hup; [| exact Hle | discriminate].
    rewrite Hup.
    rewrite !scan_down_while.
    destruct (scan_while _ _ fn fuel x s1) as [o2 s2] eqn:Hdown.
    destruct o2 as [x'|e|]; intros Heq Ho.
    + apply scan_while_fuel_mono with (fuel' := fuel') in Hdown; [| exact Hle | discriminate].
      rewrite Hdown. exact Heq.
    + apply scan_while_fuel_mono with (fuel' := fuel') in Hdown; [| exact Hle | discriminate].
      rewrite Hdown. exact Heq.
    + injection Heq as <- <-. contradiction.
  - intros Heq Ho.
    apply scan_while_fuel_mono with (fuel' := fuel') in Hup; [| exact Hle | discriminate].
    rewrite Hup. exact Heq.
  - intros Heq Ho. injection Heq as <- <-. contradiction.
Qed.

End Fuel.

(** ** IRR *)

Section IRRFacts.
Context {num : Type} {N : Number num}.

(** The observed search and the search of [IRR] are one run. *)
Lemma IRR_search_observed (fuel : nat) (cfs : CashFlow num) :
  exists o n1 called returned,
    seekZero (observed (npv (depth cfs) (cashFlow cfs))) fuel (1%Z, (0, 0)%nat)
      = (o, (n1, (called, returned))) /\
    seekZero (npv (depth cfs) (cashFlow cfs)) fuel 1%Z = (o, n1) /\
    IRR_evaluations fuel cfs = (called, returned).
Proof.
  unfold IRR_evaluations.
  destruct (seekZero (observed _) fuel (1%Z, (0, 0)%nat)) as [o [n1 [called returned]]] eqn:Hobs.
  exists o, n1, called, returned.
  split; [reflexivity|]. split; [|reflexivity].
  exact (seekZero_observed _ _ _ _ Hobs).
Qed.

(** With a [depth] below [2^53] the search never wants more than [depth]
    rounds of a loop. *)
Lemma IRR_search_fuel_enough (fuel : nat) (cfs : CashFlow num) :
  (depth cfs < 2 ^ 53)%Z ->
  (Z.to_nat (depth cfs) < fuel)%nat ->
  fst (seekZero (npv (depth cfs) (cashFlow cfs)) fuel 1%Z) <> OutOfFuel.
Proof.
  intros Hd Hfuel.
  destruct (IRR_search_observed fuel cfs) as (o & n1 & called & returned & Hobs & Hrun & _).
  rewrite Hrun. simpl. intros ->.
  apply seekZero_npv in Hobs. destruct Hobs as (_ & Hret & Hout & _). lia.
Qed.

(** More rounds do not change how a run has ended. *)
Lemma IRR_fuel_mono (fuel fuel' : nat) (cfs : CashFlow num) :
  (fuel <= fuel')%nat ->
  fst (IRR_fuel fuel cfs) <> OutOfFuel ->
  IRR_fuel fuel' cfs = IRR_fuel fuel cfs.
Proof.
  intros Hle. unfold IRR_fuel.
  destruct (sign_flags (cashFlow cfs)) as [positive negative].
  destruct (negb positive || negb negative); [reflexivity|].
  destruct (seekZero _ fuel 1%Z) as [o n1] eqn:Hrun.
  intros Hout.
  assert (Ho : o <> OutOfFuel) by (intros ->; apply Hout; reflexivity).
  apply seekZero_fuel_mono with (fuel' := fuel') in Hrun; [| exact Hle | exact Ho].
  rewrite Hrun. reflexivity.
Qed.

Lemma IRR_fuel_enough (fuel : nat) (cfs : CashFlow num) :
  (depth cfs < 2 ^ 53)%Z ->
  (Z.to_nat (depth cfs) < fuel)%nat ->
  fst (IRR_fuel fuel cfs) <> OutOfFuel /\
  IRR_fuel fuel cfs = IRR_fuel (S (Z.to_nat (depth cfs))) cfs.
Proof.
  intros Hd Hfuel.
  assert (Hany : forall f, (Z.to_nat (depth cfs) < f)%nat -> fst (IRR_fuel f cfs) <> OutOfFuel).
  { intros f Hf. unfold IRR_fuel.
    destruct (sign_flags (cashFlow cfs)) as [positive negative].
    destruct (negb positive || negb negative); [discriminate|].
    pose proof (@IRR_search_fuel_enough f cfs Hd Hf) as Hmin.
    destruct (seekZero _ f 1%Z) as [o n1]. simpl in *.
    destruct o; try discriminate. contradiction. }
  split; [apply Hany; exact Hfuel|].
  apply IRR_fuel_mono; [lia | apply Hany; lia].
Qed.

(** A call of [IRR] ends in one way only. *)
Lemma IRR_unique (cfs : CashFlow num) (result result' : outcome num * Z) :
  IRR cfs result -> IRR cfs result' -> result = result'.
Proof.
  intros [Hout [fuel Hrun]] [Hout' [fuel' Hrun']].
  destruct (Nat.le_ge_cases fuel fuel') as [Hle|Hge].
  - rewrite <- Hrun in Hout. rewrite (IRR_fuel_mono cfs Hle Hout) in Hrun'. congruence.
  - rewrite <- Hrun' in Hout'. rewrite (IRR_fuel_mono cfs Hge Hout') in Hrun. congruence.
Qed.

End IRRFacts.

Section IRRClaims.
Context {num : Type} {N : Number num}.

(** C4, as amended.  Inside [IRR] the objective keeps a counter that starts
    at [1] and is stepped on every call (by one, until it stays at
    [2^53]), and a call throws "IRR can't find a result" exactly when the
    counter has passed [depth]; so on a sign-mixed series the objective
    returns a value at most [depth - 1] times when [1 <= depth < 2^53] and
    never when [depth <= 0]; from [depth = 2^53] on no call throws. *)
Theorem IRR_evaluation_budget (fuel : nat) (cfs : CashFlow num) :
  has_positive (cashFlow cfs) -> has_negative (cashFlow cfs) ->
  (forall rate n,
     npv (depth cfs) (cashFlow cfs) rate n =
     (if (next_try n >? depth cfs)%Z then Threw SearchExhausted
      else Returned (npv_value (cashFlow cfs) rate),
      next_try n)) /\
  snd (IRR_fuel fuel cfs)
    = Z.min (1 + Z.of_nat (fst (IRR_evaluations fuel cfs))) (2 ^ 53) /\
  (fst (IRR_fuel fuel cfs) = Threw SearchExhausted <->
   fst (IRR_evaluations fuel cfs) = S (snd (IRR_evaluations fuel cfs))) /\
  (fst (IRR_fuel fuel cfs) = Threw SearchExhausted ->
   (depth cfs < snd (IRR_fuel fuel cfs))%Z) /\
  ((depth cfs < 2 ^ 53)%Z ->
   (Z.of_nat (snd (IRR_evaluations fuel cfs)) <= Z.max 0 (depth cfs - 1))%Z) /\
  ((2 ^ 53 <= depth cfs)%Z -> fst (IRR_fuel fuel cfs) <> Threw SearchExhausted).
Proof.
  intros Hp Hn. split; [intros rate n; apply npv_call|].
  rewrite (IRR_fuel_checked fuel cfs Hp Hn).
  destruct (IRR_search_observed fuel cfs) as (o & n1 & called & returned & Hobs & Hrun & Hev).
  rewrite Hrun, Hev. simpl.
  apply seekZero_npv in Hobs. destruct Hobs as (Hn1 & Hret & Ho).
  split; [exact Hn1|].
  destruct o as [r|e|]; simpl.
  - destruct Ho as (n & m & Hc & Hr & _).
    split; [split; [discriminate | lia]|]. split; [discriminate|].
    split; [lia | discriminate].
  - destruct Ho as (-> & Hc & Hd).
    split; [split; [intros _; exact Hc | reflexivity]|]. split; [intros _; exact Hd|].
    split; [lia | intros Hbig _; lia].
  - destruct Ho as (Hf & Hc).
    split; [split; [discriminate | lia]|]. split; [discriminate|].
    split; [lia | discriminate].
Qed.

(** C5, as amended.  With a [depth] below [2^53], [IRR] terminates on
    every series: with [depth + 1] rounds for each loop the search has
    returned or thrown, and more rounds change nothing.  The reason is the
    objective: one round of either loop is one call of it, each call moves
    the counter up by one as long as it is below [2^53], and past [depth]
    the call throws.  [seekZero] has no bound of its own: on an objective
    that stays positive, or stays negative, no number of rounds is
    enough. *)
Theorem IRR_terminates (cfs : CashFlow num) :
  (depth cfs < 2 ^ 53)%Z ->
  IRR cfs (IRR_fuel (S (Z.to_nat (depth cfs))) cfs) /\
  ((exists r, fst (IRR_fuel (S (Z.to_nat (depth cfs))) cfs) = Returned r) \/
   (exists e, fst (IRR_fuel (S (Z.to_nat (depth cfs))) cfs) = Threw e)) /\
  (forall fuel, (Z.to_nat (depth cfs) < fuel)%nat ->
     IRR_fuel fuel cfs = IRR_fuel (S (Z.to_nat (depth cfs))) cfs) /\
  (forall fuel x n,
     scan_up (npv (depth cfs) (cashFlow cfs)) (S fuel) x n =
     if (next_try n >? depth cfs)%Z then (Threw SearchExhausted, next_try n)
     else if gt (npv_value (cashFlow cfs) x) (of_Z 0)
          then scan_up (npv (depth cfs) (cashFlow cfs)) fuel (add x (of_Z 1)) (next_try n)
          else (Returned x, next_try n)) /\
  (forall fuel x n,
     scan_down (npv (depth cfs) (cashFlow cfs)) (S fuel) x n =
     if (next_try n >? depth cfs)%Z then (Threw SearchExhausted, next_try n)
     else if lt (npv_value (cashFlow cfs) x) (of_Z 0)
          then scan_down (npv (depth cfs) (cashFlow cfs)) fuel (sub x cent) (next_try n)
          else (Returned x, next_try n)) /\
  (forall n, (n < 2 ^ 53)%Z -> next_try n = (n + 1)%Z) /\
  (forall f : num -> num, (forall y, gt (f y) (of_Z 0) = true) ->
     forall fuel, seekZero (pure_fn f) fuel tt = (OutOfFuel, tt)) /\
  (forall f : num -> num, (forall y, lt (f y) (of_Z 0) = true) ->
     forall fuel, seekZero (pure_fn f) fuel tt = (OutOfFuel, tt)).
Proof.
  intros Hd.
  destruct (@IRR_fuel_enough _ _ (S (Z.to_nat (depth cfs))) cfs Hd ltac:(lia)) as [Hout _].
  split; [|split; [|split; [|split; [|split; [|split; [|split]]]]]].
  - split; [exact Hout | eexists; reflexivity].
  - destruct (fst (IRR_fuel _ cfs)) as [r|e|]; [left; eauto | right; eauto | contradiction].
  - intros fuel Hfuel. apply IRR_fuel_enough; assumption.
  - intros fuel x n. rewrite scan_up_step, npv_call.
    destruct (next_try n >? depth cfs)%Z; reflexivity.
  - intros fuel x n. rewrite scan_down_step, npv_call.
    destruct (next_try n >? depth cfs)%Z; reflexivity.
  - intros n Hn. apply next_try_bounds. exact Hn.
  - intros f Hpos fuel. rewrite seekZero_unfold, scan_up_runs_on by exact Hpos. reflexivity.
  - intros f Hneg fuel. rewrite seekZero_unfold.
    destruct (scan_up (pure_fn f) fuel (of_Z 1) tt) as [[x|e|] []] eqn:Hup.
    + rewrite scan_down_runs_on by exact Hneg. reflexivity.
    + exfalso. revert Hup. apply scan_up_pure_never_throws.
    + reflexivity.
Qed.

(** X17.  What a call of [IRR] that returns has found.  The value is
    [x + 0.01] rounded to two decimals, where [x] is the last point of the
    downward scan: the objective is not negative at [x], it is negative at
    every point of the downward scan before [x], and it is positive at
    every point of the upward scan before its last, where it is not; the
    counter ends at the number of evaluations plus one (at [2^53] if that
    is less), which is not above the depth. *)
Theorem IRR_scan_result (cfs : CashFlow num) (r : num) (tries : Z) :
  IRR cfs (Returned r, tries) ->
  exists n m,
    r = div (round (mul (add (down (up n) m) cent) (of_Z 100))) (of_Z 100) /\
    lt (npv_value (cashFlow cfs) (down (up n) m)) (of_Z 0) = false /\
    (forall j, (j < m)%nat ->
       lt (npv_value (cashFlow cfs) (down (up n) j)) (of_Z 0) = true) /\
    gt (npv_value (cashFlow cfs) (up n)) (of_Z 0) = false /\
    (forall k, (k < n)%nat -> gt (npv_value (cashFlow cfs) (up k)) (of_Z 0) = true) /\
    tries = Z.min (Z.of_nat (n + m + 3)) (2 ^ 53) /\ (tries <= depth cfs)%Z.
Proof.
  intros [_ [fuel Hrun]].
  assert (Hsigns : has_positive (cashFlow cfs) /\ has_negative (cashFlow cfs)).
  { apply sign_check_passes. unfold IRR_fuel in Hrun.
    destruct (sign_flags (cashFlow cfs)) as [positive negative].
    destruct (negb positive || negb negative); [discriminate | reflexivity]. }
  destruct Hsigns as [Hp Hn].
  rewrite (IRR_fuel_checked fuel cfs Hp Hn) in Hrun.
  destruct (IRR_search_observed fuel cfs) as (o & n1 & called & returned & Hobs & Hplain & _).
  rewrite Hplain in Hrun. simpl in Hrun.
  apply seekZero_npv in Hobs. destruct Hobs as (Hn1 & Hret & Ho).
  destruct o as [x|e|]; try discriminate.
  apply pair_equal_spec in Hrun. destruct Hrun as [Hr <-].
  injection Hr as <-.
  destruct Ho as (n & m & -> & -> & _ & _ & Hpos & Hstop & Hneg & Hstop' & ->).
  exists n, m. repeat (split; [first [reflexivity | assumption]|]). split; lia.
Qed.

End IRRClaims.

(** *** Runs of IRR *)

(** The counter in binary64: the last step that is exact, and the first
    that is not. *)
Example next_try_binary64 :
  PrimFloat.add (float_of_Z (2 ^ 53 - 1)) (float_of_Z 1) = float_of_Z (next_try (2 ^ 53 - 1))
  /\ PrimFloat.add (float_of_Z (2 ^ 53)) (float_of_Z 1) = float_of_Z (next_try (2 ^ 53))
  /\ next_try (2 ^ 53) = (2 ^ 53)%Z.
Proof. vm_compute. repeat split. Qed.

(** The test suite expects a value between 4951 and 4952: it is 4951.3,
    after 5024 evaluations. *)
Example IRR_test_series :
  IRR test_series (Returned (div (of_Z 495130) (of_Z 100)), 5025%Z).
Proof. split; [discriminate | exists (Z.to_nat 10001); vm_compute; reflexivity]. Qed.

Lemma test_series_signs :
  has_positive (cashFlow test_series) /\ has_negative (cashFlow test_series).
Proof.
  split.
  - exists 297%float. split; [simpl; tauto | reflexivity].
  - exists (-6)%float. split; [simpl; tauto | reflexivity].
Defined.

(** C4, an instance: the search of the test suite, with [depth = 10000]. *)
Lemma IRR_evaluation_budget_test_series :
  snd (IRR_fuel (Z.to_nat 10001) test_series)
    = Z.min (1 + Z.of_nat (fst (IRR_evaluations (Z.to_nat 10001) test_series))) (2 ^ 53) /\
  (Z.of_nat (snd (IRR_evaluations (Z.to_nat 10001) test_series)) <= Z.max 0 (10000 - 1))%Z.
Proof.
  pose proof (IRR_evaluation_budget (Z.to_nat 10001) test_series
                (proj1 test_series_signs) (proj2 test_series_signs)) as H.
  split; [exact (proj1 (proj2 H))|].
  apply (proj1 (proj2 (proj2 (proj2 (proj2 H))))). reflexivity.
Defined.

(** With [depth = 100] the same search is cut short: the 100th call
    throws, after 99 calls that returned a value. *)
Example IRR_test_series_exhausted :
  IRR {| depth := 100; cashFlow := cashFlow test_series |} (Threw SearchExhausted, 101%Z)
  /\ IRR_evaluations 101 {| depth := 100; cashFlow := cashFlow test_series |}
     = (100%nat, 99%nat).
Proof.
  split; [split; [discriminate | exists 101%nat; vm_compute; reflexivity]|].
  vm_compute. reflexivity.
Qed.

(** C4, the counterexample: with [depth = 0] the first call throws, the
    objective has returned a value zero times, and zero is not at most
    [depth - 1 = -1]. *)
Lemma IRR_no_budget_not_below_zero :
  ~ at_most_depth_minus_one (N := float_Number).
Proof.
  intros Hclaim. specialize (Hclaim 1%nat no_budget_series).
  assert (Hp : has_positive (cashFlow no_budget_series))
    by (exists 1%float; split; [simpl; tauto | reflexivity]).
  assert (Hn : has_negative (cashFlow no_budget_series))
    by (exists (-1)%float; split; [simpl; tauto | reflexivity]).
  specialize (Hclaim Hp Hn).
  assert (Hev : IRR_evaluations 1 no_budget_series = (1%nat, 0%nat))
    by (vm_compute; reflexivity).
  rewrite Hev in Hclaim. simpl in Hclaim. lia.
Qed.

(** C5, an instance: the search of the test suite ends, and with its
    10001 rounds. *)
Lemma IRR_terminates_test_series :
  IRR test_series (IRR_fuel (S (Z.to_nat 10000)) test_series).
Proof.
  apply (IRR_terminates test_series). reflexivity.
Defined.

(** X17, an instance: the value the test suite gets is [x + 0.01]
    rounded, for a scan point [x] as the theorem describes. *)
Lemma IRR_scan_result_test_series :
  exists n m,
    div (of_Z 495130) (of_Z 100)
      = div (round (mul (add (down (up n) m) cent) (of_Z 100))) (of_Z 100) /\
    lt (npv_value (cashFlow test_series) (down (up n) m)) (of_Z 0) = false /\
    (forall j, (j < m)%nat ->
       lt (npv_value (cashFlow test_series) (down (up n) j)) (of_Z 0) = true) /\
    gt (npv_value (cashFlow test_series) (up n)) (of_Z 0) = false /\
    (forall k, (k < n)%nat ->
       gt (npv_value (cashFlow test_series) (up k)) (of_Z 0) = true) /\
    5025%Z = Z.min (Z.of_nat (n + m + 3)) (2 ^ 53) /\ (5025 <= depth test_series)%Z.
Proof.
  apply (@IRR_scan_result float float_Number test_series).
  split; [discriminate | exists (Z.to_nat 10001); vm_compute; reflexivity].
Defined.

(** On [[100, -110]] the objective is negative at [x = 1] already, the
    upward scan does nothing, and the downward scan walks away from the
    root at 10 until the discount factor [1 + x/100] changes sign near
    [x = -100].  [IRR] returns -99.99, where the net present value is
    about -1099900. *)
Example IRR_loan_series :
  IRR loan_series (Returned (div (of_Z (-9999)) (of_Z 100)), 10103%Z)
  /\ lt (npv_value (cashFlow loan_series) (div (of_Z (-9999)) (of_Z 100)))
        (of_Z (-1099899)) = true.
Proof.
  split; [split; [discriminate | exists (Z.to_nat 10201); vm_compute; reflexivity]|].
  vm_compute. reflexivity.
Qed.

(** On [[-100000000, 102000000]] the search is three evaluations long:
    [npv(1) > 0], [npv(2) = 0] ends both loops, [IRR] returns 2.01, and the
    net present value there is below -9802. *)
Example IRR_large_series :
  IRR large_series (Returned (div (of_Z 201) (of_Z 100)), 4%Z)
  /\ npv_value (cashFlow large_series) (of_Z 2) = of_Z 0
  /\ lt (npv_value (cashFlow large_series) (div (of_Z 201) (of_Z 100)))
        (of_Z (-9802)) = true.
Proof.
  split; [split; [discriminate | exists 11%nat; vm_compute; reflexivity]|].
  vm_compute. split; reflexivity.
Qed.

(** C6.  [IRR] is documented as "the discount rate that makes the net
    present value of a series of cash flows equal to zero".  On
    [[100, -110]], whose net present value is zero at 10 percent, it
    returns -99.99, and the net present value at the rate returned is not
    within a million of zero. *)
Theorem IRR_root_far_from_zero :
  ~ IRR_root_within (N := float_Number) (of_Z 1000000).
Proof.
  intros Hclaim.
  specialize (Hclaim loan_series (div (of_Z (-9999)) (of_Z 100)) 10103%Z).
  assert (Hp : has_positive (cashFlow loan_series))
    by (exists 100%float; split; [simpl; tauto | reflexivity]).
  assert (Hn : has_negative (cashFlow loan_series))
    by (exists (-110)%float; split; [simpl; tauto | reflexivity]).
  specialize (Hclaim Hp Hn (proj1 IRR_loan_series)).
  vm_compute in Hclaim. discriminate.
Qed.

(** ** XIRR: the durations and the sums *)

Section XIRRFacts.
Context {num : Type} {N : Number num}.

Lemma fold_left_push {A B : Type} (g : A -> B) (l : list A) : forall init : list B,
  fold_left (fun (acc : list B) (i : A) => acc ++ [g i]) l init = init ++ map g l.
Proof.
  induction l as [|a l IH]; intros init; simpl.
  - rewrite app_nil_r. reflexivity.
  - rewrite IH, <- app_assoc. reflexivity.
Qed.

Lemma durations_map (dts : list Date) :
  durations dts =
  of_Z 0 :: map (fun i => durYear (nth 0 dts 0%Z) (nth i dts 0%Z)) (seq 1 (length dts - 1)).
Proof. unfold durations. rewrite fold_left_push. reflexivity. Qed.

Lemma durations_length (dts : list Date) :
  length (durations dts) = Nat.max 1 (length dts).
Proof.
  rewrite durations_map. cbn [length]. rewrite length_map, length_seq. lia.
Qed.

Lemma durations_first (dts : list Date) : nth 0 (durations dts) nan = of_Z 0.
Proof. rewrite durations_map. reflexivity. Qed.

Lemma durations_nth (dts : list Date) (i : nat) :
  (1 <= i < length dts)%nat ->
  nth i (durations dts) nan = durYear (nth 0 dts 0%Z) (nth i dts 0%Z).
Proof.
  intros Hi. rewrite durations_map.
  destruct i as [|i]; [lia|]. simpl.
  set (g := fun i => durYear (nth 0 dts 0%Z) (nth i dts 0%Z)).
  rewrite (nth_indep _ nan (g 0%nat)) by (rewrite length_map, length_seq; lia).
  rewrite map_nth, seq_nth by lia. reflexivity.
Qed.

(** A loop that adds term [i] for [i = 0 .. n-1] to [0] is the sum. *)
Lemma fold_left_sigma (term : nat -> num) (n : nat) :
  fold_left (fun (acc : num) (i : nat) => add acc (term i)) (seq 0 n) (of_Z 0)
  = sigma n term.
Proof.
  induction n as [|n IH]; [reflexivity|].
  rewrite seq_S, fold_left_app, IH. reflexivity.
Qed.

Lemma sum_fx_NPV (cfs durs : list num) (g : num) : sum_fx cfs durs g = NPV cfs durs g.
Proof. unfold sum_fx, NPV. apply fold_left_sigma. Qed.

Lemma sum_fdx_NPV' (cfs durs : list num) (g : num) : sum_fdx cfs durs g = NPV' cfs durs g.
Proof.
  unfold sum_fdx, NPV'.
  apply (fold_left_sigma
           (fun i => mul (mul (neg (nth i cfs nan)) (nth i durs nan))
                         (pow (add (of_Z 1) g) (sub (of_Z (-1)) (nth i durs nan))))).
Qed.

Lemma sumEq_quotient (cfs durs : list num) (g : num) :
  sumEq cfs durs g = div (NPV cfs durs g) (NPV' cfs durs g).
Proof. unfold sumEq. rewrite sum_fx_NPV, sum_fdx_NPV'. reflexivity. Qed.

Lemma newton_guess_shift (cfs durs : list num) (g0 : num) (k : nat) :
  newton_guess cfs durs (newton_update cfs durs g0) k = newton_guess cfs durs g0 (S k).
Proof. induction k as [|k IH]; simpl; [reflexivity | now rewrite IH]. Qed.

(** The [do] loop: it has run [k + 1] times, for the first [k] with
    [k + 1] at the limit or the guesses [k] and [k + 1] in agreement;
    [guessLast] and [guess] are those two. *)
Lemma newton_loop (cfs durs : list num) (limit : nat) : forall g0 : num,
  exists k,
    newton cfs durs limit g0 =
      (newton_guess cfs durs g0 k, newton_guess cfs durs g0 (S k), S k) /\
    (S k <= Nat.max 1 limit)%nat /\
    (forall j, (j < k)%nat ->
       ~ agree (newton_guess cfs durs g0 j) (newton_guess cfs durs g0 (S j))) /\
    (agree (newton_guess cfs durs g0 k) (newton_guess cfs durs g0 (S k))
     \/ S k = Nat.max 1 limit).
Proof.
  induction limit as [|limit IH]; intros g0.
  - exists 0%nat. simpl. unfold newton_update. rewrite sumEq_quotient.
    split; [reflexivity|]. split; [lia|]. split; [intros j Hj; lia | right; reflexivity].
  - simpl newton. rewrite sumEq_quotient. fold (newton_update cfs durs g0).
    destruct (String.eqb (toFixed5 g0) (toFixed5 (newton_update cfs durs g0))) eqn:Heq;
      cbn [negb andb].
    + exists 0%nat. split; [reflexivity|]. split; [lia|].
      split; [intros j Hj; lia|]. left. apply String.eqb_eq. exact Heq.
    + destruct limit as [|limit].
      * exists 0%nat. split; [reflexivity|]. split; [lia|].
        split; [intros j Hj; lia | right; reflexivity].
      * change (0 <? S limit)%nat with true. cbv iota.
        destruct (IH (newton_update cfs durs g0)) as (k & Hrun & Hk & Hno & Hstop).
        rewrite Hrun. rewrite !newton_guess_shift.
        exists (S k). split; [reflexivity|]. split; [lia|]. split.
        -- intros [|j] Hj.
           ++ simpl. unfold agree. apply String.eqb_neq. exact Heq.
           ++ assert (Hj' : (j < k)%nat) by lia.
              specialize (Hno j Hj'). rewrite !newton_guess_shift in Hno. exact Hno.
        -- rewrite !newton_guess_shift in Hstop.
           destruct Hstop as [Hstop|Hstop]; [left; exact Hstop | right; lia].
Qed.

End XIRRFacts.

(** ** XIRR: the checks and the iteration *)

Section XIRRRuns.
Context {num : Type} {N : Number num}.

Lemma XIRR_mismatch (cfs : list num) (dts : list Date) (guess : option num) :
  length cfs <> length dts ->
  XIRR cfs dts guess = (Threw LengthMismatch, no_calls).
Proof.
  intros Hlen. unfold XIRR.
  destruct (Nat.eqb_spec (length cfs) (length dts)) as [Heq|_]; [contradiction|].
  reflexivity.
Qed.

Lemma XIRR_bad_signs (cfs : list num) (dts : list Date) (guess : option num) :
  length cfs = length dts ->
  (~ has_positive cfs \/ ~ has_negative cfs) ->
  XIRR cfs dts guess = (Threw InvalidCashFlowSigns, no_calls).
Proof.
  intros Hlen Hbad. unfold XIRR.
  rewrite (proj2 (Nat.eqb_eq _ _) Hlen). cbn [negb].
  pose proof (proj2 (sign_check_fails cfs) Hbad) as Hc.
  destruct (sign_flags cfs) as [positive negative].
  rewrite Hc. reflexivity.
Qed.

(** Past the two checks: the loop runs from the guess given ([0] when
    none is), stops as [newton_loop] says, and the last two guesses decide
    between a value and "did not converge". *)
Lemma XIRR_run (cfs : list num) (dts : list Date) (guess : option num) :
  length cfs = length dts -> has_positive cfs -> has_negative cfs ->
  let g := newton_guess cfs (durations dts)
             (match guess with Some g0 => g0 | None => of_Z 0 end) in
  exists k, (S k <= 100)%nat /\
    (forall j, (j < k)%nat -> ~ agree (g j) (g (S j))) /\
    (agree (g k) (g (S k)) \/ S k = 100%nat) /\
    XIRR cfs dts guess =
    (if String.eqb (toFixed5 (g k)) (toFixed5 (g (S k)))
     then Returned (div (round (mul (mul (g (S k)) (of_Z 100)) (of_Z 100))) (of_Z 100))
     else Threw DidNotConverge,
     {| durYear_calls := length dts - 1; sumEq_calls := S k |}).
Proof.
  intros Hlen Hp Hn g. unfold XIRR.
  rewrite (proj2 (Nat.eqb_eq _ _) Hlen). cbn [negb].
  pose proof (proj2 (sign_check_passes cfs) (conj Hp Hn)) as Hc.
  destruct (sign_flags cfs) as [positive negative].
  rewrite Hc.
  destruct (newton_loop cfs (durations dts) 100
              (match guess with Some g0 => g0 | None => of_Z 0 end))
    as (k & Hrun & Hk & Hno & Hstop).
  exists k. fold g in Hrun, Hno, Hstop.
  split; [exact Hk|]. split; [exact Hno|]. split; [exact Hstop|].
  rewrite Hrun. rewrite durations_length.
  replace (Nat.max 1 (length dts) - 1)%nat with (length dts - 1)%nat by lia.
  destruct (String.eqb (toFixed5 (g k)) (toFixed5 (g (S k)))); reflexivity.
Qed.

(** C2.  [sumEq(cfs, durs, g)] is the quotient [NPV(g) / NPV'(g)] of the
    two sums; the loop of [XIRR] replaces the guess [g] by
    [g - NPV(g)/NPV'(g)] each time it runs, so after [k + 1] runs
    [guessLast] and [guess] are the guesses number [k] and [k + 1] counted
    from the guess it was given.  Past its checks [XIRR] runs that loop
    from the caller's guess: it calls [sumEq] [k + 1] times, for the first
    [k] whose guesses number [k] and [k + 1] agree (or for [k = 99]), and
    what it returns or throws is decided by those two guesses alone.  A
    call without a guess is the call with the guess [0]. *)
Theorem XIRR_newton_update (cfs : list num) :
  (forall durs g, sumEq cfs durs g = div (NPV cfs durs g) (NPV' cfs durs g)) /\
  (forall durs g, sub g (sumEq cfs durs g) = newton_update cfs durs g) /\
  (forall durs limit g0, exists k,
     newton cfs durs limit g0 =
       (newton_guess cfs durs g0 k, newton_guess cfs durs g0 (S k), S k) /\
     (S k <= Nat.max 1 limit)%nat /\
     (forall j, (j < k)%nat ->
        ~ agree (newton_guess cfs durs g0 j) (newton_guess cfs durs g0 (S j))) /\
     (agree (newton_guess cfs durs g0 k) (newton_guess cfs durs g0 (S k))
      \/ S k = Nat.max 1 limit)) /\
  (forall dts g0, length cfs = length dts -> has_positive cfs -> has_negative cfs ->
     exists k, (S k <= 100)%nat /\
       (forall j, (j < k)%nat ->
          ~ agree (newton_guess cfs (durations dts) g0 j)
                  (newton_guess cfs (durations dts) g0 (S j))) /\
       (agree (newton_guess cfs (durations dts) g0 k)
              (newton_guess cfs (durations dts) g0 (S k))
        \/ S k = 100%nat) /\
       XIRR cfs dts (Some g0) =
       (if String.eqb (toFixed5 (newton_guess cfs (durations dts) g0 k))
                      (toFixed5 (newton_guess cfs (durations dts) g0 (S k)))
        then Returned (div (round (mul (mul (newton_guess cfs (durations dts) g0 (S k))
                                            (of_Z 100)) (of_Z 100))) (of_Z 100))
        else Threw DidNotConverge,
        {| durYear_calls := length dts - 1; sumEq_calls := S k |})) /\
  (forall dts, XIRR cfs dts None = XIRR cfs dts (Some (of_Z 0))).
Proof.
  split; [intros durs g; apply sumEq_quotient|].
  split; [intros durs g; unfold newton_update; rewrite sumEq_quotient; reflexivity|].
  split; [|split].
  - intros durs limit g0. exact (newton_loop cfs durs limit g0).
  - intros dts g0 Hlen Hp Hn.
    exact (@XIRR_run cfs dts (Some g0) Hlen Hp Hn).
  - intros dts. reflexivity.
Qed.

(** C3.  Past its checks [XIRR] stops at the first [k] below 100 for which
    the guesses number [k] and [k + 1] have the same five-decimal text,
    after [k + 1] runs of the loop, and returns guess [k + 1] times 100
    rounded to two decimals; if there is no such [k] it stops after 100
    runs and throws "did not converge". *)
Theorem XIRR_stops (cfs : list num) (dts : list Date) (guess : option num) :
  length cfs = length dts -> has_positive cfs -> has_negative cfs ->
  let g := newton_guess cfs (durations dts)
             (match guess with Some g0 => g0 | None => of_Z 0 end) in
  (forall k, (k < 100)%nat ->
     (forall j, (j < k)%nat -> toFixed5 (g j) <> toFixed5 (g (S j))) ->
     toFixed5 (g k) = toFixed5 (g (S k)) ->
     XIRR cfs dts guess =
     (Returned (div (round (mul (mul (g (S k)) (of_Z 100)) (of_Z 100))) (of_Z 100)),
      {| durYear_calls := length dts - 1; sumEq_calls := S k |})) /\
  ((forall j, (j < 100)%nat -> toFixed5 (g j) <> toFixed5 (g (S j))) ->
   XIRR cfs dts guess =
   (Threw DidNotConverge,
    {| durYear_calls := length dts - 1; sumEq_calls := 100 |})).
Proof.
  intros Hlen Hp Hn g.
  destruct (@XIRR_run cfs dts guess Hlen Hp Hn) as (k0 & Hk0 & Hno & Hstop & Hrun).
  fold g in Hno, Hstop, Hrun. unfold agree in Hno, Hstop.
  split.
  - intros k Hk Hfirst Hagree.
    assert (k0 = k) as ->.
    { destruct (Nat.lt_trichotomy k0 k) as [Hlt|[Heq|Hgt]]; [|exact Heq|].
      - destruct Hstop as [Hstop|Hstop]; [|lia].
        exfalso. exact (Hfirst k0 Hlt Hstop).
      - exfalso. exact (Hno k Hgt Hagree). }
    rewrite Hrun. rewrite (proj2 (String.eqb_eq _ _) Hagree). reflexivity.
  - intros Hnever.
    assert (k0 = 99%nat) as ->.
    { destruct Hstop as [Hstop|Hstop]; [|lia].
      exfalso. apply (Hnever k0); [lia | exact Hstop]. }
    rewrite Hrun. rewrite (proj2 (String.eqb_neq _ _) (Hnever 99%nat ltac:(lia))).
    reflexivity.
Qed.

(** C7, as amended.  [IRR] throws the sign error if and only if the series
    lacks a strictly positive entry or lacks a strictly negative one, and
    then its counter still has its initial value [1]: the objective was
    not evaluated.  [XIRR] throws it if and only if the two arrays have the
    same length and the series lacks such an entry, and then before any
    call of [durYear] or [sumEq]. *)
Theorem sign_error_iff :
  (forall (fuel : nat) (cfs : CashFlow num),
     (fst (IRR_fuel fuel cfs) = Threw InvalidCashFlowSigns <->
      (~ has_positive (cashFlow cfs) \/ ~ has_negative (cashFlow cfs))) /\
     (fst (IRR_fuel fuel cfs) = Threw InvalidCashFlowSigns ->
      snd (IRR_fuel fuel cfs) = 1%Z)) /\
  (forall (cfs : list num) (dts : list Date) (guess : option num),
     (fst (XIRR cfs dts guess) = Threw InvalidCashFlowSigns <->
      (length cfs = length dts /\ (~ has_positive cfs \/ ~ has_negative cfs))) /\
     (fst (XIRR cfs dts guess) = Threw InvalidCashFlowSigns ->
      snd (XIRR cfs dts guess) = no_calls)).
Proof.
  split.
  - intros fuel cfs.
    assert (Hiff : fst (IRR_fuel fuel cfs) = Threw InvalidCashFlowSigns <->
                   (~ has_positive (cashFlow cfs) \/ ~ has_negative (cashFlow cfs))).
    { split.
      - intros Hthrow. apply sign_check_fails.
        destruct (let (positive, negative) := sign_flags (cashFlow cfs) in
                  negb positive || negb negative) eqn:Hc; [reflexivity|].
        exfalso. apply sign_check_passes in Hc. destruct Hc as [Hp Hn].
        rewrite (IRR_fuel_checked fuel cfs Hp Hn) in Hthrow. simpl in Hthrow.
        destruct (IRR_search_observed fuel cfs)
          as (o & n1 & called & returned & Hobs & Hplain & _).
        rewrite Hplain in Hthrow. simpl in Hthrow.
        apply seekZero_npv in Hobs. destruct Hobs as (_ & _ & Ho).
        destruct o as [r|e|]; try discriminate.
        destruct Ho as (-> & _). discriminate.
      - intros Hbad. rewrite (IRR_fuel_unchecked fuel cfs Hbad). reflexivity. }
    split; [exact Hiff|].
    intros Hthrow. apply Hiff in Hthrow.
    rewrite (IRR_fuel_unchecked fuel cfs Hthrow). reflexivity.
  - intros cfs dts guess.
    assert (Hiff : fst (XIRR cfs dts guess) = Threw InvalidCashFlowSigns <->
                   (length cfs = length dts /\ (~ has_positive cfs \/ ~ has_negative cfs))).
    { split.
      - intros Hthrow.
        destruct (Nat.eq_dec (length cfs) (length dts)) as [Hlen|Hlen].
        + split; [exact Hlen|]. apply sign_check_fails.
          destruct (let (positive, negative) := sign_flags cfs in
                    negb positive || negb negative) eqn:Hc; [reflexivity|].
          exfalso. apply sign_check_passes in Hc. destruct Hc as [Hp Hn].
          destruct (@XIRR_run cfs dts guess Hlen Hp Hn) as (k & _ & _ & _ & Hrun).
          rewrite Hrun in Hthrow. simpl in Hthrow.
          destruct (String.eqb _ _); discriminate.
        + rewrite (@XIRR_mismatch cfs dts guess Hlen) in Hthrow. discriminate.
      - intros [Hlen Hbad]. rewrite (@XIRR_bad_signs cfs dts guess Hlen Hbad). reflexivity. }
    split; [exact Hiff|].
    intros Hthrow. apply Hiff in Hthrow. destruct Hthrow as [Hlen Hbad].
    rewrite (@XIRR_bad_signs cfs dts guess Hlen Hbad). reflexivity.
Qed.

(** C8.  [XIRR] throws the length error exactly when the two arrays differ
    in length, and that is all it does then: whatever the signs of the
    series, no call of [durYear], no call of [sumEq]. *)
Theorem XIRR_length_mismatch (cfs : list num) (dts : list Date) (guess : option num) :
  (fst (XIRR cfs dts guess) = Threw LengthMismatch <-> length cfs <> length dts) /\
  (length cfs <> length dts -> XIRR cfs dts guess = (Threw LengthMismatch, no_calls)).
Proof.
  split; [|apply XIRR_mismatch].
  split.
  - intros Hthrow Hlen.
    destruct (let (positive, negative) := sign_flags cfs in
              negb positive || negb negative) eqn:Hc.
    + apply sign_check_fails in Hc.
      rewrite (@XIRR_bad_signs cfs dts guess Hlen Hc) in Hthrow. discriminate.
    + apply sign_check_passes in Hc. destruct Hc as [Hp Hn].
      destruct (@XIRR_run cfs dts guess Hlen Hp Hn) as (k & _ & _ & _ & Hrun).
      rewrite Hrun in Hthrow. simpl in Hthrow.
      destruct (String.eqb _ _); discriminate.
  - intros Hlen. rewrite (@XIRR_mismatch cfs dts guess Hlen). reflexivity.
Qed.

End XIRRRuns.

(** *** Runs of XIRR *)

Lemma one_year_flows_signs :
  has_positive one_year_flows /\ has_negative one_year_flows.
Proof.
  split.
  - exists 1200%float. split; [simpl; tauto | reflexivity].
  - exists (-1000)%float. split; [simpl; tauto | reflexivity].
Defined.

(** C3, an instance: from the guess 0.1 the texts of the guesses are
    "0.10000", "0.19167", "0.19994", "0.20000", "0.20000"; the loop stops
    after its fourth run and [XIRR] returns 20. *)
Lemma XIRR_stops_one_year :
  XIRR one_year_flows one_year_dates (Some (div (of_Z 1) (of_Z 10)))
  = (Returned (of_Z 20), {| durYear_calls := 1; sumEq_calls := 4 |}).
Proof.
  pose proof (@XIRR_stops float float_Number one_year_flows one_year_dates
                (Some (div (of_Z 1) (of_Z 10))) eq_refl
                (proj1 one_year_flows_signs) (proj2 one_year_flows_signs)) as [Hstop _].
  rewrite (Hstop 3%nat).
  - vm_compute. reflexivity.
  - lia.
  - intros j Hj. destruct j as [|[|[|j]]]; [vm_compute; discriminate .. | lia].
  - vm_compute. reflexivity.
Defined.

Example XIRR_one_year_texts :
  map (fun k => toFixed5 (newton_guess one_year_flows (durations one_year_dates)
                            (div (of_Z 1) (of_Z 10)) k)) [0; 1; 2; 3; 4]%nat
  = ["0.10000"; "0.19167"; "0.19994"; "0.20000"; "0.20000"]%string.
Proof. vm_compute. reflexivity. Qed.

(** A series on which the guesses go 0, -2, 0, -2, ...: the texts never
    agree, the loop runs 100 times, and [XIRR] throws. *)
Example XIRR_cycle :
  newton_update cycle_flows (durations cycle_dates) (of_Z 0) = of_Z (-2)
  /\ newton_update cycle_flows (durations cycle_dates) (of_Z (-2)) = of_Z 0
  /\ XIRR cycle_flows cycle_dates None
     = (Threw DidNotConverge, {| durYear_calls := 2; sumEq_calls := 100 |}).
Proof. vm_compute. repeat split. Qed.

(** C7, the counterexample: [XIRR([1], [])] has a series without a negative
    entry and throws the length error, not the sign error. *)
Lemma XIRR_sign_error_not_iff :
  ~ XIRR_sign_error_iff (N := float_Number).
Proof.
  intros Hclaim.
  destruct (Hclaim [1%float] [] None) as [_ Hthrow].
  assert (Hbad : ~ has_positive [1%float] \/ ~ has_negative [1%float]).
  { right. intros (v & Hin & Hlt). simpl in Hin. destruct Hin as [<-|[]].
    vm_compute in Hlt. discriminate. }
  specialize (Hthrow Hbad). vm_compute in Hthrow. discriminate.
Qed.

(** With both flows on one day every duration is [0], [sum_fdx] is [0],
    [sumEq] is [200 / 0], infinite, and the guess goes from [0] to minus
    infinity and stays: after two runs [XIRR] returns minus infinity. *)
Example XIRR_same_day :
  durations same_day_dates = [0; 0]%float
  /\ sum_fdx one_year_flows (durations same_day_dates) (of_Z 0) = 0%float
  /\ sumEq one_year_flows (durations same_day_dates) (of_Z 0) = infinity
  /\ XIRR one_year_flows same_day_dates None
     = (Returned neg_infinity, {| durYear_calls := 1; sumEq_calls := 2 |}).
Proof. vm_compute. repeat split. Qed.

(** C10, the counterexample: two flows of opposite sign on one day pass
    both checks of [XIRR], and the divisor [sum_fdx] is zero. *)
Lemma divisor_zero_same_day :
  ~ divisor_nonzero (N := float_Number).
Proof.
  intros Hclaim.
  apply (Hclaim one_year_flows same_day_dates (of_Z 0) eq_refl
           (proj1 one_year_flows_signs) (proj2 one_year_flows_signs)).
  vm_compute. reflexivity.
Qed.

(** ** Exact arithmetic: the durations and the divisor *)

Section ExactFacts.
Variable Math_pow : Q -> Q -> Q.
Let NQ : Number Q := Q_Number Math_pow.

Lemma Qred_zero (q : Q) : q == 0 -> Qred q = 0.
Proof. intros Hq. apply (Qred_complete q 0) in Hq. exact Hq. Qed.

(** [Math.round(Math.abs((t2 - t1) / day))], computed on the integers. *)
Lemma Q_day_count (d1 d2 : Z) :
  Qfloor (Qred (Qabs (Qred (Qred (inject_Z d2 - inject_Z d1)
                            / inject_Z (24 * 60 * 60 * 1000))))
          + (1 # 2))
  = nearest_days (d2 - d1).
Proof.
  unfold nearest_days.
  transitivity (Qfloor ((Z.abs (d2 - d1) + 43200000) # 86400000)); [|reflexivity].
  apply Qfloor_comp.
  rewrite !Qred_correct.
  assert (E : (inject_Z d2 - inject_Z d1) / inject_Z (24 * 60 * 60 * 1000)
              == (d2 - d1) # 86400000).
  { unfold Qeq, Qdiv, Qminus, Qplus, Qopp, Qmult, Qinv, inject_Z. simpl. lia. }
  rewrite E. unfold Qabs.
  unfold Qeq, Qplus. simpl. lia.
Qed.

Lemma Q_durYear (d1 d2 : Date) :
  @durYear Q NQ d1 d2 = Qred (inject_Z (nearest_days (d2 - d1)) / inject_Z 365).
Proof.
  unfold durYear. cbn [of_Z sub div abs round NQ Q_Number]. unfold Q_round.
  rewrite Q_day_count. reflexivity.
Qed.

Lemma Q_durYear_symmetric (d1 d2 : Date) : @durYear Q NQ d1 d2 = @durYear Q NQ d2 d1.
Proof.
  rewrite !Q_durYear. unfold nearest_days.
  replace (d1 - d2)%Z with (- (d2 - d1))%Z by lia.
  rewrite Z.abs_opp. reflexivity.
Qed.

Lemma Q_term_zero (c p : Q) : @mul Q NQ (@mul Q NQ (@neg Q NQ c) 0) p = 0.
Proof.
  cbn [mul neg NQ Q_Number].
  rewrite (@Qred_zero (Qred (- c) * 0)) by ring.
  apply Qred_zero. ring.
Qed.

Lemma Q_sum_fdx_zero (cfs durs : list Q) (guess : Q) :
  (forall i, (i < length cfs)%nat -> nth i durs (@nan Q NQ) = 0) ->
  @sum_fdx Q NQ cfs durs guess = 0.
Proof.
  intros Hz. unfold sum_fdx.
  assert (Hin : forall i, In i (seq 0 (length cfs)) -> (i < length cfs)%nat)
    by (intros i Hi; apply in_seq in Hi; lia).
  revert Hin. generalize (seq 0 (length cfs)) as l.
  change (@of_Z Q NQ 0) with 0.
  induction l as [|i l IH]; intros Hin; [reflexivity|].
  cbn [fold_left]. rewrite (Hz i) by (apply Hin; left; reflexivity).
  rewrite Q_term_zero. change (@add Q NQ 0 0) with 0.
  apply IH. intros j Hj. apply Hin. right. exact Hj.
Qed.

Lemma Q_divisor_zero (cfs : list Q) (dts : list Date) (guess : Q) :
  length cfs = length dts ->
  (forall d, In d dts -> d = nth 0 dts 0%Z) ->
  @sum_fdx Q NQ cfs (@durations Q NQ dts) guess = 0.
Proof.
  intros Hlen Hsame.
  apply Q_sum_fdx_zero. intros [|i] Hi; [apply (@durations_first Q NQ)|].
  rewrite (@durations_nth Q NQ) by lia. rewrite Q_durYear.
  rewrite (Hsame (nth (S i) dts 0%Z)) by (apply nth_In; lia).
  rewrite Z.sub_diag. reflexivity.
Qed.

End ExactFacts.

(** ** Binary64: what does not depend on the rounding *)

Section SignSymmetry.
Variables prec emax : Z.

(** Rounding to nearest even does not look at the sign. *)
Lemma binary_round_aux_opp (s : bool) (mx ex : Z) (lx : location) :
  binary_round_aux prec emax (negb s) mx ex lx
  = SFopp (binary_round_aux prec emax s mx ex lx).
Proof.
  unfold binary_round_aux.
  destruct (shr_fexp prec emax mx ex lx) as [mrs' e'].
  destruct (shr_fexp prec emax _ e' loc_Exact) as [mrs'' e''].
  destruct (shr_m mrs''); try reflexivity.
  destruct (Z.leb e'' (emax - prec)); reflexivity.
Qed.

Lemma binary_round_opp (s : bool) (m : positive) (e : Z) :
  binary_round prec emax (negb s) m e = SFopp (binary_round prec emax s m e).
Proof.
  unfold binary_round.
  destruct (shl_align m e _) as [mz ez]. apply binary_round_aux_opp.
Qed.

Lemma binary_normalize_opp (m e : Z) :
  binary_normalize prec emax (- m) e false = binary_normalize prec emax m e false
  \/ binary_normalize prec emax (- m) e false
     = SFopp (binary_normalize prec emax m e false).
Proof.
  destruct m as [|m|m]; simpl.
  - left; reflexivity.
  - right. apply (binary_round_opp false).
  - right. apply (binary_round_opp true).
Qed.

(** [y - x] is [x - y] or its opposite (the first when both are zero). *)
Lemma SFsub_swap (x y : spec_float) :
  SFsub prec emax y x = SFsub prec emax x y
  \/ SFsub prec emax y x = SFopp (SFsub prec emax x y).
Proof.
  destruct x as [sx|sx| |sx mx ex], y as [sy|sy| |sy my ey];
    try (destruct sx, sy; simpl; auto; fail);
    try (destruct sx; simpl; auto; fail);
    try (destruct sy; simpl; auto; fail);
    try (simpl; auto; fail).
  simpl. rewrite (Z.min_comm ey ex).
  set (a := cond_Zopp sx _). set (b := cond_Zopp sy _).
  replace (b - a)%Z with (- (a - b))%Z by lia.
  apply binary_normalize_opp.
Qed.

Lemma SFdiv_opp_l (x d : spec_float) :
  SFdiv prec emax (SFopp x) d = SFopp (SFdiv prec emax x d).
Proof.
  destruct x as [sx|sx| |sx mx ex], d as [sd|sd| |sd md ed]; simpl;
    try reflexivity; try (destruct sx, sd; reflexivity).
  destruct (SFdiv_core_binary prec emax (Z.pos mx) ex (Z.pos md) ed) as [[mz ez] lz].
  rewrite <- binary_round_aux_opp. destruct sx, sd; reflexivity.
Qed.

Lemma SFabs_opp (x : spec_float) : SFabs (SFopp x) = SFabs x.
Proof. destruct x; reflexivity. Qed.

End SignSymmetry.

Lemma float_abs_sub_div (a b d : float) :
  PrimFloat.abs (PrimFloat.div (PrimFloat.sub a b) d)
  = PrimFloat.abs (PrimFloat.div (PrimFloat.sub b a) d).
Proof.
  apply Prim2SF_inj.
  rewrite !FloatAxioms.abs_spec, !FloatAxioms.div_spec, !FloatAxioms.sub_spec. unfold SF64div, SF64sub.
  destruct (SFsub_swap prec emax (Prim2SF b) (Prim2SF a)) as [E|E]; rewrite E.
  - reflexivity.
  - rewrite SFdiv_opp_l, SFabs_opp. reflexivity.
Qed.

Section ZeroOrNan.
Variable Math_pow : float -> float -> float.
Let NF : Number float := binary64 Math_pow.

Lemma float_durYear_symmetric (d1 d2 : Date) :
  @durYear float NF d1 d2 = @durYear float NF d2 d1.
Proof.
  unfold durYear. cbn [of_Z sub div abs round NF binary64].
  rewrite (float_abs_sub_div (float_of_Z d2) (float_of_Z d1)). reflexivity.
Qed.

Lemma zero_or_nan_mul_r (x z : float) : zero_or_nan z -> zero_or_nan (PrimFloat.mul x z).
Proof.
  unfold zero_or_nan. rewrite FloatAxioms.mul_spec. unfold SF64mul.
  destruct (Prim2SF x) as [sx|sx| |sx mx ex], (Prim2SF z) as [sz|sz| |sz mz ez];
    simpl; tauto.
Qed.

Lemma zero_or_nan_mul_l (z x : float) : zero_or_nan z -> zero_or_nan (PrimFloat.mul z x).
Proof.
  unfold zero_or_nan. rewrite FloatAxioms.mul_spec. unfold SF64mul.
  destruct (Prim2SF x) as [sx|sx| |sx mx ex], (Prim2SF z) as [sz|sz| |sz mz ez];
    simpl; tauto.
Qed.

Lemma zero_or_nan_add (a b : float) :
  zero_or_nan a -> zero_or_nan b -> zero_or_nan (PrimFloat.add a b).
Proof.
  unfold zero_or_nan. rewrite FloatAxioms.add_spec. unfold SF64add.
  destruct (Prim2SF a) as [sx|sx| |sx mx ex], (Prim2SF b) as [sz|sz| |sz mz ez];
    simpl; try tauto.
  destruct sx, sz; tauto.
Qed.

Lemma zero_or_nan_sub_diag (x : float) : zero_or_nan (PrimFloat.sub x x).
Proof.
  unfold zero_or_nan. rewrite FloatAxioms.sub_spec. unfold SF64sub.
  destruct (Prim2SF x) as [sx|sx| |sx mx ex]; simpl; try tauto.
  - destruct sx; exact I.
  - destruct sx; exact I.
  - rewrite Z.sub_diag. exact I.
Qed.

Lemma zero_or_nan_div (z d : float) :
  (exists s m e, Prim2SF d = S754_finite s m e) ->
  zero_or_nan z -> zero_or_nan (PrimFloat.div z d).
Proof.
  intros (s & m & e & Hd). unfold zero_or_nan. rewrite FloatAxioms.div_spec, Hd. unfold SF64div.
  destruct (Prim2SF z) as [sz|sz| |sz mz ez]; simpl; tauto.
Qed.

Lemma zero_or_nan_abs (z : float) : zero_or_nan z -> zero_or_nan (PrimFloat.abs z).
Proof.
  unfold zero_or_nan. rewrite FloatAxioms.abs_spec.
  destruct (Prim2SF z) as [sz|sz| |sz mz ez]; simpl; tauto.
Qed.

Lemma zero_or_nan_round (z : float) : zero_or_nan z -> float_round z = z.
Proof.
  unfold zero_or_nan, float_round, Z_of_float, Q_of_float.
  destruct (Prim2SF z) as [sz|sz| |sz mz ez]; simpl; try tauto; reflexivity.
Qed.

(** Two equal dates are zero days apart (NaN stands for dates that are
    no numbers; time values never are). *)
Lemma float_durYear_same (d : Date) : zero_or_nan (@durYear float NF d d).
Proof.
  unfold durYear. cbn [of_Z sub div abs round NF binary64].
  apply zero_or_nan_div; [vm_compute; eauto|].
  rewrite zero_or_nan_round;
    apply zero_or_nan_abs, zero_or_nan_div, zero_or_nan_sub_diag; vm_compute; eauto.
Qed.

Lemma float_sum_fdx_zero (cfs durs : list float) (guess : float) :
  (forall i, (i < length cfs)%nat -> zero_or_nan (nth i durs (@nan float NF))) ->
  zero_or_nan (@sum_fdx float NF cfs durs guess).
Proof.
  intros Hz. unfold sum_fdx.
  assert (Hin : forall i, In i (seq 0 (length cfs)) -> (i < length cfs)%nat)
    by (intros i Hi; apply in_seq in Hi; lia).
  revert Hin. generalize (seq 0 (length cfs)) as l.
  assert (H0 : zero_or_nan (@of_Z float NF 0)) by exact I.
  revert H0. generalize (@of_Z float NF 0) as acc.
  intros acc H0 l. revert acc H0.
  induction l as [|i l IH]; intros acc H0 Hin; [exact H0|].
  cbn [fold_left]. apply IH.
  - cbn [add mul neg NF binary64].
    apply zero_or_nan_add; [exact H0|].
    apply zero_or_nan_mul_l, zero_or_nan_mul_r, Hz, Hin. left; reflexivity.
  - intros j Hj. apply Hin. right. exact Hj.
Qed.

Lemma float_divisor_zero (cfs : list float) (dts : list Date) (guess : float) :
  length cfs = length dts ->
  (forall d, In d dts -> d = nth 0 dts 0%Z) ->
  zero_or_nan (@sum_fdx float NF cfs (@durations float NF dts) guess).
Proof.
  intros Hlen Hsame.
  apply float_sum_fdx_zero. intros [|i] Hi.
  - rewrite (@durations_first float NF). exact I.
  - rewrite (@durations_nth float NF) by lia.
    rewrite (Hsame (nth (S i) dts 0%Z)) by (apply nth_In; lia).
    apply float_durYear_same.
Qed.

End ZeroOrNan.

(** ** The durations, and the divisor of the Newton step *)

(** C9.  In every arithmetic [durs[0] = 0] and, for every [i] from [1],
    [durs[i]] is [round(|dates[i] - dates[0]| / day) / 365]; in exact
    arithmetic that is the whole number of days nearest to the span, over
    365; and [durYear] does not see the order of its two dates, in exact
    arithmetic and in binary64 alike: [durYear(d1, d2) = durYear(d2, d1)]. *)
Theorem durYear_symmetric :
  (forall (num : Type) (N : Number num) (dts : list Date),
     nth 0 (durations dts) nan = of_Z 0 /\
     forall i, (1 <= i < length dts)%nat ->
       nth i (durations dts) nan
       = div (round (abs (div (sub (of_Z (nth i dts 0%Z)) (of_Z (nth 0 dts 0%Z)))
                              (of_Z 86400000))))
             (of_Z 365)) /\
  (forall (Math_pow : Q -> Q -> Q) (d1 d2 : Date),
     @durYear Q (Q_Number Math_pow) d1 d2
     = Qred (inject_Z (nearest_days (d2 - d1)) / inject_Z 365)) /\
  (forall (Math_pow : Q -> Q -> Q) (d1 d2 : Date),
     @durYear Q (Q_Number Math_pow) d1 d2 = @durYear Q (Q_Number Math_pow) d2 d1) /\
  (forall (Math_pow : float -> float -> float) (d1 d2 : Date),
     @durYear float (binary64 Math_pow) d1 d2 = @durYear float (binary64 Math_pow) d2 d1).
Proof.
  split; [|split; [|split]].
  - intros num N dts. split; [apply durations_first|].
    intros i Hi. rewrite durations_nth by exact Hi. reflexivity.
  - apply Q_durYear.
  - apply Q_durYear_symmetric.
  - apply float_durYear_symmetric.
Qed.

(** C10, as amended.  The divisor is not always different from zero: when
    every date equals [dates[0]] every duration is zero and [sum_fdx] is
    no number other than zero, for every series and at every guess: zero
    in exact arithmetic, a zero or NaN in binary64.  Each Newton step then
    divides by it all the same. *)
Theorem divisor_zero_when_dates_equal (dts : list Date) :
  (forall d, In d dts -> d = nth 0 dts 0%Z) ->
  (forall (Math_pow : float -> float -> float) (cfs : list float) (guess : float),
     length cfs = length dts ->
     zero_or_nan (@sum_fdx float (binary64 Math_pow) cfs
                    (@durations float (binary64 Math_pow) dts) guess)) /\
  (forall (Math_pow : Q -> Q -> Q) (cfs : list Q) (guess : Q),
     length cfs = length dts ->
     @sum_fdx Q (Q_Number Math_pow) cfs (@durations Q (Q_Number Math_pow) dts) guess = 0).
Proof.
  intros Hsame. split.
  - intros Math_pow cfs guess Hlen. apply float_divisor_zero; assumption.
  - intros Math_pow cfs guess Hlen. apply Q_divisor_zero; assumption.
Qed.

(** C10, an instance: [[-1000, 1200]], both on one day. *)
Lemma divisor_zero_same_day_both :
  zero_or_nan (sum_fdx one_year_flows (durations same_day_dates) (of_Z 0)) /\
  @sum_fdx Q (Q_Number Q_pow_int) one_year_flows_exact
     (@durations Q (Q_Number Q_pow_int) same_day_dates) 0 = 0.
Proof.
  assert (Hsame : forall d, In d same_day_dates -> d = nth 0 same_day_dates 0%Z)
    by (intros d [<-|[<-|[]]]; reflexivity).
  split.
  - exact (proj1 (divisor_zero_when_dates_equal same_day_dates Hsame)
             float_pow one_year_flows (of_Z 0) eq_refl).
  - exact (proj2 (divisor_zero_when_dates_equal same_day_dates Hsame)
             Q_pow_int one_year_flows_exact 0 eq_refl).
Defined.

(** ** Binary64: the size of sums, products and quotients

    What rounding to nearest does to the exponent, read off the
    specification of the operations; enough to follow a search whose
    objective stays positive. *)

Section Binary64Sizes.
Local Open Scope Z_scope.

Lemma digits2_size (p : positive) : digits2_pos p = Pos.size p.
Proof. induction p as [p IH|p IH|]; simpl; [rewrite IH | rewrite IH |]; reflexivity. Qed.

Lemma Zdigits2_log2 (p : positive) : Zdigits2 (Zpos p) = Z.log2 (Zpos p) + 1.
Proof.
  unfold Zdigits2. rewrite digits2_size.
  destruct p as [p|p|]; simpl; try rewrite Pos2Z.inj_succ; try reflexivity; lia.
Qed.

Lemma Zdigits2_bounds (p : positive) :
  2 ^ (Zdigits2 (Zpos p) - 1) <= Zpos p < 2 ^ Zdigits2 (Zpos p).
Proof.
  rewrite Zdigits2_log2.
  pose proof (Z.log2_spec (Zpos p) ltac:(lia)) as H.
  replace (Z.log2 (Zpos p) + 1 - 1) with (Z.log2 (Zpos p)) by lia.
  replace (Z.log2 (Zpos p) + 1) with (Z.succ (Z.log2 (Zpos p))) by lia. exact H.
Qed.

Lemma Zdigits2_le (p : positive) (j : Z) : 0 <= j -> Zpos p < 2 ^ j -> Zdigits2 (Zpos p) <= j.
Proof.
  intros Hj H. rewrite Zdigits2_log2.
  apply Z.log2_lt_pow2 in H; lia.
Qed.

Lemma Zdigits2_ge (p : positive) (j : Z) : 0 <= j -> 2 ^ j <= Zpos p -> j + 1 <= Zdigits2 (Zpos p).
Proof.
  intros Hj H. rewrite Zdigits2_log2.
  apply Z.log2_le_pow2 in H; lia.
Qed.

Lemma Zdigits2_pos (p : positive) : 1 <= Zdigits2 (Zpos p).
Proof. unfold Zdigits2. lia. Qed.

Lemma shr_1_half (mrs : shr_record) : 0 <= shr_m mrs -> shr_m (shr_1 mrs) = shr_m mrs / 2.
Proof.
  destruct mrs as [m r s]. simpl. intros Hm.
  rewrite <- Z.div2_div.
  destruct m as [|[q|q|]|q]; try reflexivity. lia.
Qed.

Lemma shr_m_iter (p : positive) : forall mrs : shr_record,
  0 <= shr_m mrs -> shr_m (iter_pos shr_1 p mrs) = shr_m mrs / 2 ^ Zpos p.
Proof.
  assert (Hpow : forall q : positive, 0 < 2 ^ Zpos q) by (intros q; apply Z.pow_pos_nonneg; lia).
  induction p as [p IH|p IH|]; intros mrs Hm; simpl iter_pos.
  - assert (H1 : 0 <= shr_m (shr_1 mrs)) by (rewrite shr_1_half by exact Hm; apply Z.div_pos; lia).
    assert (H2 : 0 <= shr_m (iter_pos shr_1 p (shr_1 mrs)))
      by (rewrite IH by exact H1; apply Z.div_pos; [exact H1 | apply Hpow]).
    rewrite IH by exact H2. rewrite IH by exact H1. rewrite shr_1_half by exact Hm.
    pose proof (Hpow p).
    rewrite !Z.div_div by lia.
    f_equal. replace (Zpos p~1) with (1 + (Zpos p + Zpos p)) by lia.
    rewrite !Z.pow_add_r by lia. change (2 ^ 1) with 2. lia.
  - assert (H2 : 0 <= shr_m (iter_pos shr_1 p mrs))
      by (rewrite IH by exact Hm; apply Z.div_pos; [exact Hm | apply Hpow]).
    rewrite IH by exact H2. rewrite IH by exact Hm.
    pose proof (Hpow p).
    rewrite !Z.div_div by lia.
    f_equal. replace (Zpos p~0) with (Zpos p + Zpos p) by lia.
    rewrite !Z.pow_add_r by lia. reflexivity.
  - apply shr_1_half. exact Hm.
Qed.

(** What [shr_fexp] does to a mantissa that is not negative. *)
Lemma shr_fexp_spec (m ex : Z) (lx : location) :
  0 <= m ->
  let e' := Z.max ex (SpecFloat.fexp prec emax (Zdigits2 m + ex)) in
  snd (shr_fexp prec emax m ex lx) = e' /\
  shr_m (fst (shr_fexp prec emax m ex lx)) = m / 2 ^ (e' - ex).
Proof.
  intros Hm e'. unfold shr_fexp, shr.
  assert (Hrec : shr_m (shr_record_of_loc m lx) = m) by (destruct lx as [|[| |]]; reflexivity).
  destruct (SpecFloat.fexp prec emax (Zdigits2 m + ex) - ex) as [|p|p] eqn:Hn; cbn [fst snd].
  - replace e' with ex by lia. rewrite Z.sub_diag, Z.div_1_r. split; [reflexivity | exact Hrec].
  - replace e' with (ex + Zpos p) by lia.
    split; [reflexivity|].
    rewrite shr_m_iter by (rewrite Hrec; exact Hm). rewrite Hrec. f_equal. f_equal. lia.
  - replace e' with ex by lia. rewrite Z.sub_diag, Z.div_1_r. split; [reflexivity | exact Hrec].
Qed.

Lemma round_nearest_even_bounds (m : Z) (l : location) :
  m <= round_nearest_even m l <= m + 1.
Proof.
  unfold round_nearest_even. destruct l as [|[| |]]; try lia.
  destruct (Z.even m); lia.
Qed.

Lemma div_pow_ge1 (p : positive) (k : Z) :
  0 <= k <= Zdigits2 (Zpos p) - 1 -> 1 <= Zpos p / 2 ^ k.
Proof.
  intros Hk. pose proof (Zdigits2_bounds p) as [Hlo _].
  assert (H2 : 2 ^ k <= 2 ^ (Zdigits2 (Zpos p) - 1)) by (apply Z.pow_le_mono_r; lia).
  apply Z.div_le_lower_bound; [apply Z.pow_pos_nonneg; lia | lia].
Qed.

Lemma div_pow_lt (p : positive) (k : Z) :
  0 <= k -> Zpos p / 2 ^ k < 2 ^ Z.max (Zdigits2 (Zpos p) - k) 0.
Proof.
  intros Hk. pose proof (Zdigits2_bounds p) as [_ Hhi].
  assert (Hpk : 0 < 2 ^ k) by (apply Z.pow_pos_nonneg; lia).
  destruct (Z_le_gt_dec k (Zdigits2 (Zpos p))) as [Hle|Hgt].
  - rewrite Z.max_l by lia.
    apply Z.div_lt_upper_bound; [exact Hpk|].
    rewrite <- Z.pow_add_r by lia.
    replace (k + (Zdigits2 (Zpos p) - k)) with (Zdigits2 (Zpos p)) by lia. exact Hhi.
  - rewrite Z.max_r by lia. change (2 ^ 0) with 1.
    assert (H2 : 2 ^ Zdigits2 (Zpos p) <= 2 ^ k) by (apply Z.pow_le_mono_r; lia).
    rewrite Z.div_small; lia.
Qed.

Lemma fexp_binary64 (e : Z) : SpecFloat.fexp prec emax e = Z.max (e - 53) (-1074).
Proof. reflexivity. Qed.

(** Rounding a positive mantissa: the sign is kept, the result is no NaN,
    and the exponent lies between bounds read off the number of digits. *)
Lemma binary_round_aux_bounds (sx : bool) (m : positive) (ex : Z) (lx : location) :
  let D := Zdigits2 (Zpos m) + ex in
  match binary_round_aux prec emax sx (Zpos m) ex lx with
  | S754_zero s => s = sx /\ D <= -1074
  | S754_finite s m' e' =>
      s = sx /\ Z.max ex (Z.max (D - 53) (-1074)) <= e' <= Z.max ex (Z.max (D - 52) (-1074))
  | S754_infinity s => s = sx /\ 971 < Z.max ex (Z.max (D - 52) (-1074))
  | S754_nan => False
  end.
Proof.
  intros D. unfold binary_round_aux.
  pose proof (@shr_fexp_spec (Zpos m) ex lx ltac:(lia)) as [He1 Hm1].
  destruct (shr_fexp prec emax (Zpos m) ex lx) as [mrs' e1]. cbn [fst snd] in He1, Hm1.
  rewrite <- He1 in Hm1. rewrite fexp_binary64 in He1. fold D in He1.
  pose proof (round_nearest_even_bounds (shr_m mrs') (loc_of_shr_record mrs')) as Hr.
  set (m1' := round_nearest_even (shr_m mrs') (loc_of_shr_record mrs')) in *.
  assert (Hk : 0 <= e1 - ex) by lia.
  assert (Hm1pos : 0 <= shr_m mrs')
    by (rewrite Hm1; apply Z.div_pos; [lia | apply Z.pow_pos_nonneg; lia]).
  pose proof (@div_pow_lt m _ Hk) as Hlt. rewrite <- Hm1 in Hlt.
  pose proof (@shr_fexp_spec m1' e1 loc_Exact ltac:(lia)) as [He2 Hm2].
  destruct (shr_fexp prec emax m1' e1 loc_Exact) as [mrs'' e2]. cbn [fst snd] in He2, Hm2.
  rewrite <- He2 in Hm2. rewrite fexp_binary64 in He2.
  (* the digits of the rounded mantissa *)
  assert (Hd1 : Zdigits2 m1' <= Z.max (Zdigits2 (Zpos m) - (e1 - ex)) 0 + 1).
  { destruct m1' as [|p1|p1] eqn:Hm1'; [simpl; lia| |lia].
    apply Zdigits2_le; [lia|].
    rewrite Z.pow_add_r by lia. change (2 ^ 1) with 2. lia. }
  (* it is not zero when the value is above the least exponent *)
  assert (Hnz : -1074 < D -> 1 <= shr_m mrs'' ).
  { intros HD.
    assert (H1 : 1 <= shr_m mrs').
    { rewrite Hm1. apply div_pow_ge1. pose proof (Zdigits2_pos m). unfold D in *. lia. }
    destruct m1' as [|p1|p1] eqn:Hm1'; [lia| |lia].
    rewrite Hm2. apply div_pow_ge1. pose proof (Zdigits2_pos p1). lia. }
  assert (Hpos2 : 0 <= shr_m mrs'')
    by (rewrite Hm2; apply Z.div_pos; [lia | apply Z.pow_pos_nonneg; lia]).
  unfold D in *.
  destruct (shr_m mrs'') as [|m2|m2] eqn:Hm2'.
  - split; [reflexivity|]. destruct (Z_le_gt_dec (Zdigits2 (Zpos m) + ex) (-1074)); [assumption|].
    exfalso. assert (1 <= 0) by (apply Hnz; lia). lia.
  - change (emax - prec) with 971.
    destruct (Z.leb_spec e2 971) as [Hle|Hgt]; (split; [reflexivity | lia]).
  - lia.
Qed.

Lemma iter_xO_spec (m d : positive) :
  Zpos (Pos.iter xO m d) = Zpos m * 2 ^ Zpos d /\
  Zdigits2 (Zpos (Pos.iter xO m d)) = Zdigits2 (Zpos m) + Zpos d.
Proof.
  induction d as [|d IH] using Pos.peano_ind.
  - simpl Pos.iter. split; [rewrite Pos2Z.inj_xO; change (2 ^ 1) with 2; lia|].
    unfold Zdigits2. simpl digits2_pos. lia.
  - rewrite Pos.iter_succ. destruct IH as [IHv IHd]. split.
    + rewrite Pos2Z.inj_xO, IHv, Pos2Z.inj_succ, Z.pow_succ_r by lia. lia.
    + unfold Zdigits2 in *. simpl digits2_pos. lia.
Qed.

Lemma shl_align_spec (mx : positive) (ex ex' : Z) :
  let '(mz, ez) := shl_align mx ex ex' in
  ez = Z.min ex ex' /\
  Zpos mz = Zpos mx * 2 ^ (ex - ez) /\
  Zdigits2 (Zpos mz) + ez = Zdigits2 (Zpos mx) + ex.
Proof.
  unfold shl_align. destruct (ex' - ex) as [|d|d] eqn:Hd.
  - split; [lia|]. rewrite Z.sub_diag. split; lia.
  - split; [lia|]. rewrite Z.sub_diag. split; lia.
  - destruct (iter_xO_spec mx d) as [Hv Hdg].
    split; [lia|]. replace (ex - ex') with (Zpos d) by lia. split; [exact Hv | lia].
Qed.

Lemma binary_round_bounds (sx : bool) (m : positive) (ex : Z) :
  let D := Zdigits2 (Zpos m) + ex in
  match binary_round prec emax sx m ex with
  | S754_zero s => s = sx /\ D <= -1074
  | S754_finite s m' e' =>
      s = sx /\ Z.max (D - 53) (-1074) <= e' <= Z.max ex (Z.max (D - 52) (-1074))
  | S754_infinity s => s = sx /\ 971 < Z.max ex (Z.max (D - 52) (-1074))
  | S754_nan => False
  end.
Proof.
  intros D. unfold binary_round.
  pose proof (shl_align_spec m ex (SpecFloat.fexp prec emax (Zpos (digits2_pos m) + ex))) as Hs.
  destruct (shl_align m ex _) as [mz ez]. destruct Hs as (Hez & _ & Hdg).
  pose proof (binary_round_aux_bounds sx mz ez loc_Exact) as H. cbv zeta in H.
  rewrite Hdg in H. fold D in H.
  destruct (binary_round_aux prec emax sx (Zpos mz) ez loc_Exact) as [s|s| |s m' e'];
    try exact H.
  - destruct H as [-> H]. split; [reflexivity | lia].
  - destruct H as [-> H]. split; [reflexivity | lia].
Qed.


Lemma SF_ge1_nonneg (x : spec_float) : SF_ge1 x -> SF_nonneg x.
Proof. destruct x as [[|]|[|]| |[|] m e]; simpl; tauto. Qed.

Lemma Zdigits2_mono (a b : positive) : (a <= b)%positive -> Zdigits2 (Zpos a) <= Zdigits2 (Zpos b).
Proof.
  intros Hab. rewrite !Zdigits2_log2.
  assert (Z.log2 (Zpos a) <= Z.log2 (Zpos b)) by (apply Z.log2_le_mono; lia). lia.
Qed.

(** The sum of two positive numbers. *)
Lemma SFadd_positive (mx : positive) (ex : Z) (my : positive) (ey : Z) :
  let D := Z.max (Zdigits2 (Zpos mx) + ex) (Zdigits2 (Zpos my) + ey) in
  match SFadd prec emax (S754_finite false mx ex) (S754_finite false my ey) with
  | S754_zero s => D <= -1074
  | S754_finite s m' e' => s = false /\ Z.max (D - 53) (-1074) <= e'
  | S754_infinity s => s = false
  | S754_nan => False
  end.
Proof.
  intros D. unfold SFadd. cbn [cond_Zopp].
  pose proof (shl_align_spec mx ex (Z.min ex ey)) as Hx.
  pose proof (shl_align_spec my ey (Z.min ex ey)) as Hy.
  destruct (shl_align mx ex (Z.min ex ey)) as [a ea].
  destruct (shl_align my ey (Z.min ex ey)) as [b eb]. cbn [fst].
  destruct Hx as (Hea & _ & Hda). destruct Hy as (Heb & _ & Hdb).
  change (Zpos a + Zpos b) with (Zpos (a + b)). cbn [binary_normalize].
  pose proof (binary_round_bounds false (a + b) (Z.min ex ey)) as H. cbv zeta in H.
  pose proof (@Zdigits2_mono a (a + b) ltac:(lia)).
  pose proof (@Zdigits2_mono b (a + b) ltac:(lia)).
  destruct (binary_round prec emax false (a + b) (Z.min ex ey)) as [s|s| |s m' e'];
    try exact H.
  - unfold D. lia.
  - destruct H as [-> _]. reflexivity.
  - destruct H as [-> H]. split; [reflexivity | unfold D; lia].
Qed.

Lemma SFadd_one_r (x : spec_float) : SF_nonneg x -> SF_ge1 (SFadd prec emax x SF_one).
Proof.
  intros Hx. destruct x as [[|]|[|]| |[|] m e]; try (simpl in Hx; tauto); try exact I.
  - simpl. lia.
  - clear Hx.
  pose proof (SFadd_positive m e 4503599627370496 (-52)) as H. cbv zeta in H.
  change (Zdigits2 4503599627370496) with 53 in H.
  change (SFadd prec emax (S754_finite false m e) SF_one)
    with (SFadd prec emax (S754_finite false m e) (S754_finite false 4503599627370496 (-52))).
  destruct (SFadd prec emax (S754_finite false m e) (S754_finite false 4503599627370496 (-52)))
    as [s|s| |s m' e']; simpl.
    + lia.
    + subst s. exact I.
    + exact H.
    + destruct H as [-> H]. lia.
Qed.

Lemma SFadd_one_l (x : spec_float) : SF_nonneg x -> SF_ge1 (SFadd prec emax SF_one x).
Proof.
  intros Hx. destruct x as [[|]|[|]| |[|] m e]; try (simpl in Hx; tauto); try exact I.
  - simpl. lia.
  - clear Hx.
  pose proof (SFadd_positive 4503599627370496 (-52) m e) as H. cbv zeta in H.
  change (Zdigits2 4503599627370496) with 53 in H.
  change (SFadd prec emax SF_one (S754_finite false m e))
    with (SFadd prec emax (S754_finite false 4503599627370496 (-52)) (S754_finite false m e)).
  destruct (SFadd prec emax (S754_finite false 4503599627370496 (-52)) (S754_finite false m e))
    as [s|s| |s m' e']; simpl.
    + lia.
    + subst s. exact I.
    + exact H.
    + destruct H as [-> H]. lia.
Qed.

(** Rounding a mantissa that is not negative keeps the sign and gives no NaN. *)
Lemma binary_round_aux_sign (sx : bool) (mz ex : Z) (lx : location) :
  0 <= mz ->
  match binary_round_aux prec emax sx mz ex lx with
  | S754_nan => False
  | S754_zero s | S754_infinity s | S754_finite s _ _ => s = sx
  end.
Proof.
  intros Hmz. unfold binary_round_aux.
  pose proof (@shr_fexp_spec mz ex lx Hmz) as [_ Hm1].
  destruct (shr_fexp prec emax mz ex lx) as [mrs' e1]. cbn [fst snd] in Hm1.
  assert (Hm1pos : 0 <= shr_m mrs')
    by (rewrite Hm1; apply Z.div_pos; [lia | apply Z.pow_pos_nonneg; lia]).
  pose proof (round_nearest_even_bounds (shr_m mrs') (loc_of_shr_record mrs')) as Hr.
  set (m1' := round_nearest_even (shr_m mrs') (loc_of_shr_record mrs')) in *.
  pose proof (@shr_fexp_spec m1' e1 loc_Exact ltac:(lia)) as [_ Hm2].
  destruct (shr_fexp prec emax m1' e1 loc_Exact) as [mrs'' e2]. cbn [fst snd] in Hm2.
  assert (Hpos2 : 0 <= shr_m mrs'')
    by (rewrite Hm2; apply Z.div_pos; [lia | apply Z.pow_pos_nonneg; lia]).
  destruct (shr_m mrs'') as [|m2|m2]; [reflexivity | | lia].
  destruct (Z.leb e2 (emax - prec)); reflexivity.
Qed.

Lemma SFdiv_nonneg (x : spec_float) (m : positive) (e : Z) :
  SF_nonneg x -> SF_nonneg (SFdiv prec emax x (S754_finite false m e)).
Proof.
  intros Hx. destruct x as [[|]|[|]| |[|] mx ex]; try (simpl in Hx; tauto); try exact I.
  unfold SFdiv, SFdiv_core_binary.
  pose proof (Z_div_mod
    match ex - e - Z.min (SpecFloat.fexp prec emax (Zdigits2 (Zpos mx) + ex - (Zdigits2 (Zpos m) + e))) (ex - e) with
    | 0 => Zpos mx
    | Zpos _ => Z.shiftl (Zpos mx) (ex - e - Z.min (SpecFloat.fexp prec emax (Zdigits2 (Zpos mx) + ex - (Zdigits2 (Zpos m) + e))) (ex - e))
    | Zneg _ => 0
    end (Zpos m) ltac:(lia)) as Hdiv.
  destruct (Z.div_eucl _ (Zpos m)) as [q r].
  assert (Hq : 0 <= q).
  { destruct Hdiv as [Heq Hr].
    assert (Hnum : 0 <= Zpos m * q + r).
    { rewrite <- Heq. destruct (ex - e - _) as [|ps|ps]; [lia | | lia].
      apply Z.shiftl_nonneg. lia. }
    nia. }
  pose proof (@binary_round_aux_sign (xorb false false) q
                (Z.min (SpecFloat.fexp prec emax (Zdigits2 (Zpos mx) + ex - (Zdigits2 (Zpos m) + e))) (ex - e))
                (new_location (Zpos m) r) Hq) as H.
  destruct (binary_round_aux prec emax (xorb false false) q _ _) as [s|s| |s m' e'];
    simpl in *; subst; tauto.
Qed.

Lemma valid_finite (x : float) (s : bool) (m : positive) (e : Z) :
  Prim2SF x = S754_finite s m e ->
  Z.max (Zdigits2 (Zpos m) + e - 53) (-1074) = e /\ e <= 971.
Proof.
  intros Hx. pose proof (Prim2SF_valid x) as Hv. rewrite Hx in Hv.
  unfold valid_binary, bounded, canonical_mantissa in Hv.
  apply andb_true_iff in Hv. destruct Hv as [Hc Hb].
  apply Z.eqb_eq in Hc. apply Z.leb_le in Hb. rewrite fexp_binary64 in Hc.
  change (emax - prec) with 971 in Hb. unfold Zdigits2. lia.
Qed.

(** One times a number that is at least one. *)
Lemma SFmul_one_ge1 (m : positive) (e : Z) :
  Zdigits2 (Zpos m) = 53 -> -52 <= e ->
  SF_ge1 (SFmul prec emax SF_one (S754_finite false m e)).
Proof.
  intros Hd He. unfold SFmul, SF_one. cbn [xorb].
  pose proof (binary_round_aux_bounds false (4503599627370496 * m) (-52 + e) loc_Exact) as H.
  cbv zeta in H.
  assert (Hdg : 105 <= Zdigits2 (Zpos (4503599627370496 * m))).
  { apply (@Zdigits2_ge _ 104); [lia|].
    pose proof (Zdigits2_bounds m) as [Hlo _]. rewrite Hd in Hlo.
    change (2 ^ (53 - 1)) with 4503599627370496 in Hlo.
    change (2 ^ 104) with (4503599627370496 * 4503599627370496). lia. }
  destruct (binary_round_aux prec emax false (Zpos (4503599627370496 * m)) (-52 + e) loc_Exact)
    as [s|s| |s m' e']; simpl.
  - lia.
  - destruct H as [-> _]. exact I.
  - exact H.
  - destruct H as [-> H]. lia.
Qed.


Lemma SFdiv_neg_one (m : positive) (e : Z) :
  Zdigits2 (Zpos m) = 53 -> -52 <= e <= 971 ->
  SF_small_negative
    (SFdiv prec emax (S754_finite true 4503599627370496 (-52)) (S754_finite false m e)).
Proof.
  intros Hd He. unfold SFdiv, SFdiv_core_binary. rewrite Hd.
  change (Zdigits2 4503599627370496) with 53. rewrite fexp_binary64.
  set (e' := Z.min (Z.max (53 + -52 - (53 + e) - 53) (-1074)) (-52 - e)).
  assert (He' : e' = Z.max (-105 - e) (-1074)) by (unfold e'; lia).
  assert (Hs : 51 <= -52 - e - e' <= 53) by lia.
  destruct (-52 - e - e') as [|ps|ps] eqn:Hps; [lia| |lia].
  rewrite Z.shiftl_mul_pow2 by lia.
  pose proof (Z_div_mod (4503599627370496 * 2 ^ Zpos ps) (Zpos m) ltac:(lia)) as Hdiv.
  destruct (Z.div_eucl (4503599627370496 * 2 ^ Zpos ps) (Zpos m)) as [q r].
  destruct Hdiv as [Heq Hr].
  pose proof (Zdigits2_bounds m) as [Hlo Hhi]. rewrite Hd in Hlo, Hhi.
  change (2 ^ (53 - 1)) with 4503599627370496 in Hlo.
  change (2 ^ 53) with 9007199254740992 in Hhi.
  assert (HP : 2 ^ 51 <= 2 ^ Zpos ps) by (apply Z.pow_le_mono_r; lia).
  change (2 ^ 51) with 2251799813685248 in HP.
  set (P := 2 ^ Zpos ps) in *.
  assert (Hq : 1 <= q <= P) by nia.
  destruct q as [|pq|pq]; [lia| |lia].
  pose proof (binary_round_aux_bounds (xorb true false) pq e' (new_location (Zpos m) r)) as H.
  cbv zeta in H.
  assert (Hdq : Zdigits2 (Zpos pq) <= Zpos ps + 1).
  { apply Zdigits2_le; [lia|]. rewrite Z.pow_add_r by lia. change (2 ^ 1) with 2. fold P. lia. }
  destruct (binary_round_aux prec emax (xorb true false) (Zpos pq) e' (new_location (Zpos m) r))
    as [s|s| |s m' e'']; cbn [SF_small_negative]; cbn [xorb] in H.
  - destruct H as [-> _]. exact I.
  - lia.
  - exact H.
  - destruct H as [-> H]. lia.
Qed.


Example binary64_constants :
  Prim2SF 1000%float = SF_1000 /\ Prim2SF 1%float = SF_one /\
  Prim2SF (-1)%float = S754_finite true 4503599627370496 (-52) /\
  Prim2SF 100%float = S754_finite false 7036874417766400 (-46) /\
  Prim2SF 0%float = S754_zero false.
Proof. vm_compute. repeat split. Qed.

(** A thousand and a number between minus four and zero. *)
Lemma SFadd_1000_positive (t : spec_float) :
  SF_small_negative t ->
  (forall s m e, t = S754_finite s m e -> Z.max (Zdigits2 (Zpos m) + e - 53) (-1074) = e) ->
  SFltb (S754_zero false) (SFadd prec emax SF_1000 t) = true.
Proof.
  intros Ht Hv.
  destruct t as [[|]|[|]| |[|] mt et]; try (simpl in Ht; tauto); try reflexivity.
  - simpl in Ht. specialize (Hv true mt et eq_refl).
    unfold SFadd, SF_1000. cbn [cond_Zopp].
    pose proof (shl_align_spec 8796093022208000 (-43) (Z.min (-43) et)) as Ha.
    pose proof (shl_align_spec mt et (Z.min (-43) et)) as Hb.
    destruct (shl_align 8796093022208000 (-43) (Z.min (-43) et)) as [a ea].
    destruct (shl_align mt et (Z.min (-43) et)) as [b eb]. cbn [fst].
    destruct Ha as (Hea & Hva & _). destruct Hb as (Heb & Hvb & _).
    replace (et - eb) with 0 in Hvb by lia. rewrite Z.mul_1_r in Hvb.
    pose proof (Zdigits2_bounds mt) as [_ Hhi].
    assert (Hmt : Zpos mt < 2 ^ 53).
    { eapply Z.lt_le_trans; [exact Hhi|]. apply Z.pow_le_mono_r; lia. }
    change (2 ^ 53) with 9007199254740992 in Hmt.
    assert (HP : 2 ^ 8 <= 2 ^ (-43 - ea)) by (apply Z.pow_le_mono_r; lia).
    change (2 ^ 8) with 256 in HP.
    assert (Hab : Zpos b < Zpos a) by nia.
    destruct (Zpos a + - Zpos b) as [|c|c] eqn:Hc; [lia| |lia].
    cbn [binary_normalize].
    pose proof (binary_round_bounds false c (Z.min (-43) et)) as H. cbv zeta in H.
    pose proof (Zdigits2_pos c).
    destruct (binary_round prec emax false c (Z.min (-43) et)) as [s|s| |s m' e'].
    + lia.
    + destruct H as [-> _]. reflexivity.
    + contradiction.
    + destruct H as [-> _]. reflexivity.
Qed.

End Binary64Sizes.

(** ** IRR: a search that does not end *)

Section Runaway.
Let NF : Number float := float_Number.

(** The net present value of [[1000, -1]] at a rate that is not negative. *)
Lemma npv_runaway (x : float) :
  SF_nonneg (Prim2SF x) ->
  @gt float NF (@npv_value float NF (cashFlow runaway_series) x) (@of_Z float NF 0) = true.
Proof.
  intros Hx.
  change (@gt float NF (@npv_value float NF (cashFlow runaway_series) x) (@of_Z float NF 0))
    with (PrimFloat.ltb 0%float
            (PrimFloat.add 1000%float
               (PrimFloat.div (-1)%float
                  (PrimFloat.mul 1%float
                     (PrimFloat.add 1%float (PrimFloat.div x 100%float)))))).
  set (q := PrimFloat.div x 100%float).
  set (y := PrimFloat.add 1%float q).
  set (p := PrimFloat.mul 1%float y).
  set (t := PrimFloat.div (-1)%float p).
  assert (Hq : SF_nonneg (Prim2SF q)).
  { unfold q. rewrite FloatAxioms.div_spec.
    change (Prim2SF 100%float) with (S754_finite false 7036874417766400 (-46)).
    apply SFdiv_nonneg. exact Hx. }
  assert (Hy : SF_ge1 (Prim2SF y)).
  { unfold y. rewrite FloatAxioms.add_spec.
    change (Prim2SF 1%float) with SF_one. apply SFadd_one_l. exact Hq. }
  assert (Hp : SF_ge1 (Prim2SF p)).
  { unfold p. rewrite FloatAxioms.mul_spec. change (Prim2SF 1%float) with SF_one.
    destruct (Prim2SF y) as [[|]|[|]| |[|] m e] eqn:Ey; try (simpl in Hy; tauto).
    simpl in Hy. destruct (@valid_finite y _ _ _ Ey) as [Hc _].
    apply SFmul_one_ge1; lia. }
  assert (Ht : SF_small_negative (Prim2SF t)).
  { unfold t. rewrite FloatAxioms.div_spec.
    change (Prim2SF (-1)%float) with (S754_finite true 4503599627370496 (-52)).
    destruct (Prim2SF p) as [[|]|[|]| |[|] m e] eqn:Ep; try (simpl in Hp; tauto).
    simpl in Hp. destruct (@valid_finite p _ _ _ Ep) as [Hc Hb].
    apply SFdiv_neg_one; lia. }
  rewrite FloatAxioms.ltb_spec, FloatAxioms.add_spec.
  change (Prim2SF 0%float) with (S754_zero false).
  change (Prim2SF 1000%float) with SF_1000.
  apply SFadd_1000_positive; [exact Ht|].
  intros s m e Et. apply (@valid_finite t _ _ _ Et).
Qed.

Lemma up_nonneg (k : nat) : SF_nonneg (Prim2SF (@up float NF k)).
Proof.
  unfold up. induction k as [|k IH]; [exact I|].
  cbn [up_from]. change (@add float NF) with PrimFloat.add. rewrite FloatAxioms.add_spec.
  change (Prim2SF (@of_Z float NF 1)) with SF_one.
  apply SF_ge1_nonneg, SFadd_one_r, IH.
Qed.

End Runaway.

Section RunsAway.
Context {num : Type} {N : Number num}.

(** From a depth of [2^53] on, an upward scan over an objective that stays
    positive goes on for ever: the counter cannot pass the depth. *)
Lemma scan_up_runs_away (d : Z) (cf : list num) (fuel : nat) :
  (2 ^ 53 <= d)%Z ->
  forall (x : num) (n0 : Z), (n0 <= 2 ^ 53)%Z ->
    (forall k, gt (npv_value cf (up_from x k)) (of_Z 0) = true) ->
    fst (scan_up (npv d cf) fuel x n0) = OutOfFuel.
Proof.
  intros Hd. induction fuel as [|fuel IH]; intros x n0 Hn0 Hpos; [reflexivity|].
  rewrite scan_up_step, npv_call.
  pose proof (next_try_min Hn0) as Hnext.
  destruct (Z.gtb_spec (next_try n0) d) as [Hgt|_]; [lia|].
  pose proof (Hpos 0%nat) as H0. cbn [up_from] in H0. rewrite H0.
  apply IH; [lia|].
  intros k. rewrite up_from_shift. apply Hpos.
Qed.

End RunsAway.

(** However many rounds the search on [[1000, -1]] with depth [2^53] is
    given, it has not ended. *)
Lemma IRR_runaway_series (fuel : nat) : fst (IRR_fuel fuel runaway_series) = OutOfFuel.
Proof.
  unfold IRR_fuel.
  change (sign_flags (cashFlow runaway_series)) with (true, true). cbn [negb orb].
  rewrite seekZero_unfold.
  pose proof (@scan_up_runs_away float float_Number (depth runaway_series)
                (cashFlow runaway_series) fuel ltac:(reflexivity) (of_Z 1) 1%Z
                ltac:(discriminate)) as Hup.
  destruct (scan_up _ fuel (of_Z 1) 1%Z) as [[x|e|] n1]; cbn [fst] in Hup.
  - discriminate Hup.
    intros k. apply npv_runaway, up_nonneg.
  - discriminate Hup.
    intros k. apply npv_runaway, up_nonneg.
  - reflexivity.
Qed.

(** C5, the counterexample: with the depth [2^53] the search on
    [[1000, -1]] does not end.  The net present value [1000 - 1 / (1 + x/100)]
    is positive at every point [x] of the upward scan, and the counter
    stops at [2^53], which is not above the depth: no round returns or
    throws. *)
Lemma IRR_runs_away : ~ IRR_always_ends (N := float_Number).
Proof.
  intros Hclaim. specialize (Hclaim runaway_series).
  assert (Hp : has_positive (cashFlow runaway_series))
    by (exists 1000%float; split; [simpl; tauto | reflexivity]).
  assert (Hn : has_negative (cashFlow runaway_series))
    by (exists (-1)%float; split; [simpl; tauto | reflexivity]).
  destruct (Hclaim Hp Hn) as [result [Hout [fuel Hrun]]].
  apply Hout. rewrite <- Hrun. apply IRR_runaway_series.
Qed.

(** * The closed formulas *)

(** ** PP *)

Section PaybackFacts.
Context {num : Type} {N : Number num} {Ops : NumberOps num}.

Lemma PP_loop_some (cfs : list num) (k : nat) : forall (j : nat) (v : num),
  Finance.PP_loop cfs (seq (S j) k) (Finance.cumulative cfs j) (Finance.years j) = Some v <->
  exists i, (j < i <= j + k)%nat /\
    (forall t, (j < t < i)%nat -> gt (Finance.cumulative cfs t) (of_Z 0) = false) /\
    gt (Finance.cumulative cfs i) (of_Z 0) = true /\
    v = add (Finance.years (i - 1))
            (div (sub (Finance.cumulative cfs i) (nth i cfs nan)) (nth i cfs nan)).
Proof.
  induction k as [|k IH]; intros j v.
  - simpl. split; [discriminate|]. intros (i & Hi & _). lia.
  - cbn [seq Finance.PP_loop].
    change (add (Finance.cumulative cfs j) (nth (S j) cfs nan))
      with (Finance.cumulative cfs (S j)).
    destruct (gt (Finance.cumulative cfs (S j)) (of_Z 0)) eqn:Hpos.
    + split.
      * intros Heq. injection Heq as <-. exists (S j).
        split; [lia|]. split; [intros t Ht; lia|]. split; [exact Hpos|].
        replace (S j - 1)%nat with j by lia. reflexivity.
      * intros (i & Hi & Hbefore & Hi_pos & ->).
        assert (i = S j) as ->.
        { destruct (Nat.eq_dec i (S j)) as [E|E]; [exact E|].
          specialize (Hbefore (S j) ltac:(lia)). congruence. }
        replace (S j - 1)%nat with j by lia. reflexivity.
    + change (add (Finance.years j) (of_Z 1)) with (Finance.years (S j)).
      rewrite IH. split.
      * intros (i & Hi & Hbefore & Hi_pos & ->).
        exists i. split; [lia|]. split; [|split; [exact Hi_pos | reflexivity]].
        intros t Ht. destruct (Nat.eq_dec t (S j)) as [->|E]; [exact Hpos|].
        apply Hbefore. lia.
      * intros (i & Hi & Hbefore & Hi_pos & ->).
        assert (i <> S j) by (intros ->; congruence).
        exists i. split; [lia|]. split; [|split; [exact Hi_pos | reflexivity]].
        intros t Ht. apply Hbefore. lia.
Qed.

Lemma PP_loop_none (cfs : list num) (k : nat) : forall (j : nat),
  Finance.PP_loop cfs (seq (S j) k) (Finance.cumulative cfs j) (Finance.years j) = None <->
  (forall t, (j < t <= j + k)%nat -> gt (Finance.cumulative cfs t) (of_Z 0) = false).
Proof.
  induction k as [|k IH]; intros j.
  - simpl. split; [intros _ t Ht; lia | reflexivity].
  - cbn [seq Finance.PP_loop].
    change (add (Finance.cumulative cfs j) (nth (S j) cfs nan))
      with (Finance.cumulative cfs (S j)).
    destruct (gt (Finance.cumulative cfs (S j)) (of_Z 0)) eqn:Hpos.
    + split; [discriminate|]. intros Hall. specialize (Hall (S j) ltac:(lia)). congruence.
    + change (add (Finance.years j) (of_Z 1)) with (Finance.years (S j)).
      rewrite IH. split.
      * intros Hall t Ht. destruct (Nat.eq_dec t (S j)) as [->|E]; [exact Hpos|].
        apply Hall. lia.
      * intros Hall t Ht. apply Hall. lia.
Qed.

Lemma PP_some (numOfPeriods : num) (cfs : list num) (v : num) :
  strict_eq numOfPeriods (of_Z 0) = false ->
  (Finance.PP numOfPeriods cfs = Some v <->
   exists i, (1 <= i < length cfs)%nat /\
     (forall t, (1 <= t < i)%nat -> gt (Finance.cumulative cfs t) (of_Z 0) = false) /\
     gt (Finance.cumulative cfs i) (of_Z 0) = true /\
     v = add (Finance.years (i - 1))
             (div (sub (Finance.cumulative cfs i) (nth i cfs nan)) (nth i cfs nan))).
Proof.
  intros Hn. unfold Finance.PP. rewrite Hn.
  change (nth 0 cfs nan) with (Finance.cumulative cfs 0).
  change (of_Z 1) with (Finance.years 0).
  rewrite PP_loop_some. split.
  - intros (i & Hi & Hb & Hp & Hv). exists i. split; [lia|].
    split; [intros t Ht; apply Hb; lia|]. split; assumption.
  - intros (i & Hi & Hb & Hp & Hv). exists i. split; [lia|].
    split; [intros t Ht; apply Hb; lia|]. split; assumption.
Qed.

(** X2.  With a number of periods other than [0], [PP] returns a value
    exactly when the running sum of the flows is positive after some flow
    from the second on: at the first such index [i] it returns
    [i + (sum - cfs[i]) / cfs[i]], with [i] counted up from [1] in steps of
    [1]; and it returns [undefined] exactly when no running sum is
    positive (so also on fewer than two flows). *)
Theorem PP_uneven (numOfPeriods : num) (cfs : list num) :
  strict_eq numOfPeriods (of_Z 0) = false ->
  (forall v, Finance.PP numOfPeriods cfs = Some v <->
     exists i, (1 <= i < length cfs)%nat /\
       (forall t, (1 <= t < i)%nat -> gt (Finance.cumulative cfs t) (of_Z 0) = false) /\
       gt (Finance.cumulative cfs i) (of_Z 0) = true /\
       v = add (Finance.years (i - 1))
               (div (sub (Finance.cumulative cfs i) (nth i cfs nan)) (nth i cfs nan))) /\
  (Finance.PP numOfPeriods cfs = None <->
     forall t, (1 <= t < length cfs)%nat -> gt (Finance.cumulative cfs t) (of_Z 0) = false).
Proof.
  intros Hn. split; [intros v; apply PP_some, Hn|].
  unfold Finance.PP. rewrite Hn.
  change (nth 0 cfs nan) with (Finance.cumulative cfs 0).
  change (of_Z 1) with (Finance.years 0).
  rewrite PP_loop_none. split; intros Hall t Ht; apply Hall; lia.
Qed.

End PaybackFacts.

(** X2, an instance: [PP(5, -50, 10, 13)] is [undefined], the running sums
    being -40 and -27. *)
Lemma PP_uneven_unpaid : Finance.PP 5%float unpaid_flows = None.
Proof.
  apply (proj2 (@PP_uneven float float_Number float_NumberOps 5%float unpaid_flows eq_refl)).
  intros t Ht. simpl in Ht.
  destruct t as [|[|[|t]]]; [lia | reflexivity | reflexivity | lia].
Defined.

(** ** DF *)



Section DiscountFactors.
Context {num : Type} {N : Number num} {Ops : NumberOps num}.




End DiscountFactors.

(** ** CI *)

Lemma wrap_int32_range (z : Z) : (- 2 ^ 31 <= wrap_int32 z < 2 ^ 31)%Z.
Proof.
  unfold wrap_int32.
  pose proof (Z.mod_pos_bound (z + 2 ^ 31) (2 ^ 32) ltac:(lia)). lia.
Qed.

(** X6.  Whatever its arguments, [CI] returns a 32-bit integer of cents: a
    value [z / 100] with [-2^31 <= z < 2^31], never more than 21474836.47;
    in binary64 and in exact arithmetic, for every [Math.pow]. *)
Theorem CI_is_int32_cents :
  (forall (Math_pow : float -> float -> float)
          (rate numOfCompoundings principal numOfPeriods : float),
     exists z, (- 2 ^ 31 <= z < 2 ^ 31)%Z /\
       @Finance.CI float (binary64 Math_pow) float_NumberOps
          rate numOfCompoundings principal numOfPeriods
       = PrimFloat.div (float_of_Z z) (float_of_Z 100)) /\
  (forall (Math_pow : Q -> Q -> Q) (rate numOfCompoundings principal numOfPeriods : Q),
     exists z, (- 2 ^ 31 <= z < 2 ^ 31)%Z /\
       @Finance.CI Q (Q_Number Math_pow) Q_NumberOps
          rate numOfCompoundings principal numOfPeriods
       == inject_Z z / 100).
Proof.
  split.
  - intros Math_pow rate n principal t. unfold Finance.CI.
    eexists. split; [|reflexivity].
    cbn [to_int32 float_NumberOps]. unfold float_to_int32.
    destruct (Q_of_float _); [apply wrap_int32_range | lia].
  - intros Math_pow rate n principal t. unfold Finance.CI.
    eexists. split; [|cbn [div of_Z Q_Number]; apply Qred_correct].
    cbn [to_int32 Q_NumberOps]. apply wrap_int32_range.
Qed.

(** ** AM and PMT at no interest *)

Section ZeroRate.
Variable Math_pow : float -> float -> float.
Let NF : Number float := binary64 Math_pow.

Lemma float_is_zero (x : float) :
  PrimFloat.eqb x (float_of_Z 0) = true -> x = PrimFloat.zero \/ x = PrimFloat.neg_zero.
Proof.
  rewrite FloatAxioms.eqb_spec.
  change (Prim2SF (float_of_Z 0)) with (S754_zero false).
  destruct (Prim2SF x) as [s|s| |s m e] eqn:Hx; simpl; try discriminate.
  - intros _. destruct s; [right | left]; apply Prim2SF_inj; rewrite Hx; reflexivity.
  - destruct s; discriminate.
  - destruct s; discriminate.
Qed.

Lemma zero_or_nan_opp (z : float) : zero_or_nan z -> zero_or_nan (PrimFloat.opp z).
Proof.
  unfold zero_or_nan. rewrite FloatAxioms.opp_spec.
  destruct (Prim2SF z) as [sz|sz| |sz mz ez]; simpl; tauto.
Qed.

Lemma float_div_zeros (a b : float) :
  zero_or_nan a -> zero_or_nan b -> PrimFloat.div a b = PrimFloat.nan.
Proof.
  unfold zero_or_nan. intros Ha Hb. apply Prim2SF_inj.
  rewrite FloatAxioms.div_spec. unfold SF64div.
  destruct (Prim2SF a) as [sa|sa| |sa ma ea], (Prim2SF b) as [sb|sb| |sb mb eb];
    simpl in *; try tauto; reflexivity.
Qed.

Lemma float_mul_nan (x : float) : PrimFloat.mul x PrimFloat.nan = PrimFloat.nan.
Proof.
  apply Prim2SF_inj. rewrite FloatAxioms.mul_spec. unfold SF64mul.
  change (Prim2SF PrimFloat.nan) with S754_nan.
  destruct (Prim2SF x) as [s|s| |s m e]; reflexivity.
Qed.

(** What both methods do with their quotient once it is NaN. *)
Lemma float_cents_of_nan (principal : float) :
  PrimFloat.div
    (float_round (PrimFloat.mul (PrimFloat.mul principal PrimFloat.nan) (float_of_Z 100)))
    (float_of_Z 100)
  = PrimFloat.nan.
Proof. rewrite float_mul_nan. reflexivity. Qed.

Ltac float_ops :=
  change (@add float NF) with PrimFloat.add;
  change (@sub float NF) with PrimFloat.sub;
  change (@mul float NF) with PrimFloat.mul;
  change (@div float NF) with PrimFloat.div;
  change (@neg float NF) with PrimFloat.opp;
  change (@round float NF) with float_round;
  change (@pow float NF) with Math_pow;
  change (@of_Z float NF) with float_of_Z.

(** X9.  At a rate that is [0], with the period in years or in months,
    [AM] returns NaN (not the principal spread over the months): its
    quotient is [0 / 0] as soon as [Math.pow] gives [1] for the base [1],
    as it does at every finite exponent. *)
Theorem AM_zero_rate (principal rate period : float) (yearOrMonth : option float)
    (payAtBeginning : option bool) :
  PrimFloat.eqb rate (float_of_Z 0) = true ->
  (@Finance.falsy float NF yearOrMonth = true /\
     Math_pow (float_of_Z 1) (PrimFloat.mul period (float_of_Z 12)) = float_of_Z 1) \/
  (yearOrMonth = Some (float_of_Z 1) /\
     Math_pow (float_of_Z 1) period = float_of_Z 1) ->
  fst (@Finance.AM float NF float_NumberOps principal rate period yearOrMonth payAtBeginning)
  = PrimFloat.nan.
Proof.
  intros Hrate Hunit.
  set (i := PrimFloat.div (PrimFloat.div rate (float_of_Z 12)) (float_of_Z 100)).
  assert (Hr : i = PrimFloat.zero \/ i = PrimFloat.neg_zero).
  { unfold i. destruct (float_is_zero Hrate) as [-> | ->]; [left | right]; reflexivity. }
  assert (Hbase : PrimFloat.add (float_of_Z 1) i = float_of_Z 1).
  { destruct Hr as [-> | ->]; reflexivity. }
  assert (Hz : zero_or_nan i).
  { destruct Hr as [-> | ->]; exact I. }
  unfold Finance.AM.
  destruct Hunit as [[Hf Hpow] | [-> Hpow]].
  - rewrite Hf. cbn [fst]. float_ops. fold i. rewrite Hbase, Hpow.
    rewrite (@float_div_zeros _ (PrimFloat.sub (float_of_Z 1) (float_of_Z 1)));
      [apply float_cents_of_nan | apply zero_or_nan_mul_l; exact Hz | exact I].
  - change (@Finance.falsy float NF (Some (float_of_Z 1))) with false.
    change (strict_eq (float_of_Z 1) (@of_Z float NF 1)) with true.
    cbn [fst]. float_ops. fold i. rewrite Hbase, Hpow.
    rewrite (@float_div_zeros _ (PrimFloat.sub (float_of_Z 1) (float_of_Z 1)));
      [apply float_cents_of_nan | apply zero_or_nan_mul_l; exact Hz | exact I].
Qed.

(** X10.  At a rate that is [0], [PMT] returns NaN, for the same reason. *)
Theorem PMT_zero_rate (rate numOfPayments principal : float) :
  PrimFloat.eqb rate (float_of_Z 0) = true ->
  Math_pow (float_of_Z 1) (PrimFloat.opp numOfPayments) = float_of_Z 1 ->
  @Finance.PMT float NF rate numOfPayments principal = PrimFloat.nan.
Proof.
  intros Hrate Hpow.
  set (i := PrimFloat.div rate (float_of_Z 1200)).
  assert (Hr : i = PrimFloat.zero \/ i = PrimFloat.neg_zero).
  { unfold i. destruct (float_is_zero Hrate) as [-> | ->]; [left | right]; reflexivity. }
  assert (Hbase : PrimFloat.add (float_of_Z 1) i = float_of_Z 1).
  { destruct Hr as [-> | ->]; reflexivity. }
  assert (Hz : zero_or_nan i).
  { destruct Hr as [-> | ->]; exact I. }
  unfold Finance.PMT. float_ops. fold i. rewrite Hbase, Hpow.
  rewrite (@float_div_zeros _ (PrimFloat.sub (float_of_Z 1) (float_of_Z 1)));
    [reflexivity | apply zero_or_nan_opp, zero_or_nan_mul_r; exact Hz | exact I].
Qed.

End ZeroRate.

(** X9, an instance: twenty thousand over five years at no interest. *)
Lemma AM_zero_rate_five_years :
  fst (@Finance.AM float float_Number float_NumberOps 20000%float 0%float 5%float None None)
  = PrimFloat.nan.
Proof.
  apply (@AM_zero_rate float_pow 20000%float 0%float 5%float None None).
  - reflexivity.
  - left. split; reflexivity.
Defined.

(** X10, an instance: the same loan in sixty payments. *)
Lemma PMT_zero_rate_sixty_payments :
  @Finance.PMT float float_Number 0%float 60%float 20000%float = PrimFloat.nan.
Proof.
  apply (@PMT_zero_rate float_pow 0%float 60%float 20000%float); reflexivity.
Defined.

(** ** AM: the unit of the period *)

(** X11.  With the unit left out, or [0], [-0] or NaN, [AM] takes the
    period for years: the call is the call with unit [1] at twelve times
    the period, in value and in what it logs; for every [Math.pow]. *)
Theorem AM_years_are_twelve_months (Math_pow : float -> float -> float)
    (principal rate period : float) (yearOrMonth : option float)
    (payAtBeginning : option bool) :
  @Finance.falsy float (binary64 Math_pow) yearOrMonth = true ->
  @Finance.AM float (binary64 Math_pow) float_NumberOps
     principal rate period yearOrMonth payAtBeginning
  = @Finance.AM float (binary64 Math_pow) float_NumberOps
     principal rate (PrimFloat.mul period (float_of_Z 12)) (Some (float_of_Z 1))
     payAtBeginning.
Proof.
  intros Hf. unfold Finance.AM. rewrite Hf.
  change (@Finance.falsy float (binary64 Math_pow) (Some (float_of_Z 1))) with false.
  change (strict_eq (float_of_Z 1) (@of_Z float (binary64 Math_pow) 1)) with true.
  reflexivity.
Qed.

(** X11, an instance: five years with the unit [0] are sixty months. *)
Lemma AM_years_are_twelve_months_five_years :
  @Finance.AM float float_Number float_NumberOps
     20000%float 7.5%float 5%float (Some 0%float) (Some false)
  = @Finance.AM float float_Number float_NumberOps
     20000%float 7.5%float (PrimFloat.mul 5%float (float_of_Z 12)) (Some (float_of_Z 1))
     (Some false).
Proof.
  apply (@AM_years_are_twelve_months float_pow 20000%float 7.5%float 5%float
           (Some 0%float) (Some false)).
  reflexivity.
Defined.

(** ** XIRR: what it reads of the dates *)

Section DatesExact.
Variable Math_pow : Q -> Q -> Q.
Let NQ : Number Q := Q_Number Math_pow.

Lemma Q_durations_by_distance (dts dts' : list Date) :
  length dts' = length dts ->
  (forall i, (i < length dts)%nat ->
     Z.abs (nth i dts' 0 - nth 0 dts' 0)%Z = Z.abs (nth i dts 0 - nth 0 dts 0)%Z) ->
  @durations Q NQ dts' = @durations Q NQ dts.
Proof.
  intros Hlen Hdist. rewrite !(@durations_map Q NQ), Hlen. f_equal.
  apply map_ext_in. intros i Hi. apply in_seq in Hi.
  cbv beta. unfold NQ. rewrite !Q_durYear. unfold nearest_days.
  rewrite Hdist by lia. reflexivity.
Qed.

(** X12.  In exact arithmetic [XIRR] reads of the dates only how far each
    is from the first one, in either direction: two lists of dates with
    the same distances give the same outcome and the same calls.  Moving
    every date by the same time changes nothing, and neither does
    putting the later flows as long before the first date as they were
    after it. *)
Theorem XIRR_dates_by_distance (cfs : list Q) (dts dts' : list Date) (guess : option Q) :
  length dts' = length dts ->
  (forall i, (i < length dts)%nat ->
     Z.abs (nth i dts' 0 - nth 0 dts' 0)%Z = Z.abs (nth i dts 0 - nth 0 dts 0)%Z) ->
  @XIRR Q NQ cfs dts' guess = @XIRR Q NQ cfs dts guess.
Proof.
  intros Hlen Hdist. unfold XIRR.
  rewrite (@Q_durations_by_distance dts dts' Hlen Hdist), Hlen. reflexivity.
Qed.

End DatesExact.

(** X12, an instance: a loan paid back a year later, and "paid back" a
    year before it was made. *)
Lemma XIRR_dates_by_distance_year_before :
  @XIRR Q (Q_Number Q_pow_int) one_year_flows_exact [365 * 86400000; 0]%Z (Some (1 # 10))
  = @XIRR Q (Q_Number Q_pow_int) one_year_flows_exact one_year_dates (Some (1 # 10)).
Proof.
  apply (@XIRR_dates_by_distance Q_pow_int one_year_flows_exact one_year_dates
           [365 * 86400000; 0]%Z (Some (1 # 10))).
  - reflexivity.
  - intros [|[|i]] Hi; [reflexivity | reflexivity | simpl in Hi; lia].
Defined.

(** ** IRR: the depth that is enough *)

Section IRRDepth.
Context {num : Type} {N : Number num}.
Variables (cf : list num) (test : num -> bool) (step : num -> num).

(** A loop that returned under one depth runs alike under every depth
    that its last count does not pass. *)
Lemma scan_while_npv_returned (d : Z) (fuel : nat) :
  forall x n0 r n1,
    scan_while test step (npv d cf) fuel x n0 = (Returned r, n1) ->
    (n0 <= n1 <= d)%Z /\ ((n0 < 2 ^ 53)%Z -> (n0 < n1)%Z) /\
    forall d', (n1 <= d')%Z ->
      scan_while test step (npv d' cf) fuel x n0 = (Returned r, n1).
Proof.
  induction fuel as [|fuel IH]; intros x n0 r n1; simpl; [discriminate|].
  unfold bind. rewrite npv_call.
  pose proof (next_try_bounds n0) as [Hstep Hup].
  destruct (Z.gtb_spec (next_try n0) d) as [Hgt|Hle]; [discriminate|].
  destruct (test (npv_value cf x)) eqn:Hx.
  - intros Hrun. destruct (IH _ _ _ _ Hrun) as (Hn & _ & Hsame).
    split; [lia|]. split; [intros Hlt; specialize (Hup Hlt); lia|].
    intros d' Hd'. rewrite npv_call.
    destruct (Z.gtb_spec (next_try n0) d') as [Hgt'|_]; [lia|].
    rewrite Hx. apply Hsame. exact Hd'.
  - unfold ret. intros Heq. injection Heq as <- <-.
    split; [lia|]. split; [intros Hlt; specialize (Hup Hlt); lia|].
    intros d' Hd'. rewrite npv_call.
    destruct (Z.gtb_spec (next_try n0) d') as [Hgt'|_]; [lia|].
    rewrite Hx. reflexivity.
Qed.

(** Under a depth below its last count, it is stopped. *)
Lemma scan_while_npv_stopped (d : Z) (fuel : nat) :
  forall x n0 r n1 d',
    scan_while test step (npv d cf) fuel x n0 = (Returned r, n1) ->
    (d' < n1)%Z ->
    exists n', scan_while test step (npv d' cf) fuel x n0 = (Threw SearchExhausted, n').
Proof.
  induction fuel as [|fuel IH]; intros x n0 r n1 d'; simpl; [discriminate|].
  unfold bind. rewrite !npv_call.
  destruct (Z.gtb_spec (next_try n0) d) as [Hgt|Hle]; [discriminate|].
  destruct (Z.gtb_spec (next_try n0) d') as [Hgt'|Hle'].
  - intros _ _. eexists. reflexivity.
  - destruct (test (npv_value cf x)) eqn:Hx.
    + intros Hrun Hd'. apply (IH _ _ _ _ _ Hrun Hd').
    + unfold ret. intros Heq Hd'. injection Heq as <- <-. lia.
Qed.

End IRRDepth.

Section IRRLeastDepth.
Context {num : Type} {N : Number num}.
Variable cf : list num.

Lemma seekZero_npv_returned (d : Z) (fuel : nat) (r : num) (n : Z) :
  seekZero (npv d cf) fuel 1%Z = (Returned r, n) ->
  (3 <= n <= d)%Z /\
  (forall d', (n <= d')%Z -> seekZero (npv d' cf) fuel 1%Z = (Returned r, n)) /\
  (forall d', (d' < n)%Z ->
     exists n', seekZero (npv d' cf) fuel 1%Z = (Threw SearchExhausted, n')).
Proof.
  rewrite seekZero_unfold, scan_up_while.
  destruct (scan_while _ _ (npv d cf) fuel (of_Z 1) 1%Z) as [[x|e|] n1] eqn:Hup;
    try discriminate.
  rewrite scan_down_while.
  destruct (scan_while _ _ (npv d cf) fuel x n1) as [[x'|e|] n2] eqn:Hdown;
    try discriminate.
  intros Heq. injection Heq as <- <-.
  destruct (scan_while_npv_returned _ _ _ _ _ _ _ Hup) as (Hn1 & Hup1 & Hup').
  destruct (scan_while_npv_returned _ _ _ _ _ _ _ Hdown) as (Hn2 & Hdown1 & Hdown').
  split; [lia|]. split.
  - intros d' Hd'. rewrite seekZero_unfold, scan_up_while, Hup' by lia.
    rewrite scan_down_while, Hdown' by lia. reflexivity.
  - intros d' Hd'. rewrite seekZero_unfold, scan_up_while.
    destruct (Z_lt_le_dec d' n1) as [Hlt|Hge].
    + destruct (scan_while_npv_stopped _ _ _ _ _ _ _ Hup Hlt) as [n' ->].
      eexists. reflexivity.
    + rewrite Hup' by lia. rewrite scan_down_while.
      destruct (scan_while_npv_stopped _ _ _ _ _ _ _ Hdown Hd') as [n' ->].
      eexists. reflexivity.
Qed.

(** X13.  When [IRR] returns, the last count [n] of its counter is the
    least depth that is enough for the series: under every depth from [n]
    on it returns the same rate with the same count, and under every depth
    below [n] the search is exhausted.  [n] is 3 at least (the two loops
    evaluate once each before they can end) and at most the depth given. *)
Theorem IRR_least_depth (d d' : Z) (v : num) (n : Z) :
  IRR {| depth := d; cashFlow := cf |} (Returned v, n) ->
  (3 <= n <= d)%Z /\
  ((n <= d')%Z -> IRR {| depth := d'; cashFlow := cf |} (Returned v, n)) /\
  ((d' < n)%Z ->
   exists n', IRR {| depth := d'; cashFlow := cf |} (Threw SearchExhausted, n')).
Proof.
  intros [_ [fuel Hrun]]. unfold IRR, IRR_fuel in *. cbn [depth cashFlow] in *.
  destruct (sign_flags cf) as [positive negative].
  destruct (negb positive || negb negative); [discriminate|].
  destruct (seekZero (npv d cf) fuel 1%Z) as [[z|e|] n0] eqn:Hsearch; try discriminate.
  cbn [outcome_map] in Hrun. injection Hrun as <- <-.
  destruct (seekZero_npv_returned _ _ Hsearch) as (Hn & Hsame & Hstop).
  split; [exact Hn|]. split.
  - intros Hd'. split; [discriminate|]. exists fuel.
    rewrite (Hsame d' Hd'). reflexivity.
  - intros Hd'. destruct (Hstop d' Hd') as [n' Hthrow]. exists n'.
    split; [discriminate|]. exists fuel. rewrite Hthrow. reflexivity.
Qed.

End IRRLeastDepth.

(** X13, an instance: the large investment, searched with depth 10, ends
    with the count 4; depth 4 is enough for it and depth 3 is not. *)
Lemma IRR_least_depth_large_series :
  IRR large_series (Returned (PrimFloat.div (float_of_Z 201) (float_of_Z 100)), 4%Z) /\
  IRR {| depth := 4; cashFlow := cashFlow large_series |}
    (Returned (PrimFloat.div (float_of_Z 201) (float_of_Z 100)), 4%Z) /\
  exists n',
    IRR {| depth := 3; cashFlow := cashFlow large_series |} (Threw SearchExhausted, n').
Proof.
  assert (H : IRR {| depth := 10; cashFlow := cashFlow large_series |}
                (Returned (PrimFloat.div (float_of_Z 201) (float_of_Z 100)), 4%Z))
    by (split; [discriminate | exists 11%nat; vm_compute; reflexivity]).
  split; [exact H|]. split.
  - apply (proj1 (proj2 (@IRR_least_depth float float_Number (cashFlow large_series)
                           10 4 _ 4 H))). lia.
  - apply (proj2 (proj2 (@IRR_least_depth float float_Number (cashFlow large_series)
                           10 3 _ 4 H))). lia.
Defined.

(** ** Calls of the test suite, in binary64 *)

Example PP_test :
  Finance.PP 0%float [-105; 25]%float = Some (PrimFloat.div (float_of_Z 42) (float_of_Z 10))
  /\ exists v, Finance.PP 5%float [-50; 10; 13; 16; 19; 22]%float = Some v
        /\ PrimFloat.ltb (PrimFloat.div (float_of_Z 33) (float_of_Z 10)) v = true
        /\ PrimFloat.ltb v (PrimFloat.div (float_of_Z 36) (float_of_Z 10)) = true.
Proof. split; [vm_compute; reflexivity|]. eexists. vm_compute. repeat split. Qed.

Example AM_test :
  fst (Finance.AM 20000%float 7.5%float 5%float (Some 0%float) None)
    = PrimFloat.div (float_of_Z 40076) (float_of_Z 100)
  /\ fst (Finance.AM 20000%float 7.5%float 60%float (Some 1%float) None)
    = PrimFloat.div (float_of_Z 40076) (float_of_Z 100)
  /\ fst (Finance.AM 20000%float 7.5%float 5%float (Some 0%float) (Some true))
    = PrimFloat.div (float_of_Z 39827) (float_of_Z 100)
  /\ fst (Finance.AM 20000%float 7.5%float 60%float (Some 1%float) (Some true))
    = PrimFloat.div (float_of_Z 39827) (float_of_Z 100).
Proof. vm_compute. repeat split. Qed.

Example DF_test :
  Finance.DF 10%float 6
  = ArrayOf [Some 1%float;
             Some (PrimFloat.div (float_of_Z 910) (float_of_Z 1000));
             Some (PrimFloat.div (float_of_Z 827) (float_of_Z 1000));
             Some (PrimFloat.div (float_of_Z 752) (float_of_Z 1000));
             Some (PrimFloat.div (float_of_Z 684) (float_of_Z 1000))].
Proof. vm_compute. reflexivity. Qed.

(** [CI(4.3, 4, 1500, 6)] of the test suite; and [CI(0, 1, 1.15, 1)], which
    is 1.14: the product [1.15 * 100] is just below 115. *)
Example CI_test :
  Finance.CI (PrimFloat.div (float_of_Z 43) (float_of_Z 10)) 4%float 1500%float 6%float
    = PrimFloat.div (float_of_Z 193883) (float_of_Z 100)
  /\ Finance.CI 0%float 1%float (PrimFloat.div (float_of_Z 115) (float_of_Z 100)) 1%float
    = PrimFloat.div (float_of_Z 114) (float_of_Z 100).
Proof. vm_compute. split; reflexivity. Qed.
